(** * TodoList.tsx: the task store, its derived views and the remote loader

    A shallow embedding of the React component [TodoList] of
    [src/TodoList.tsx].  The file holds two versions of the component: the
    first one (lines 1-246, module [V1] below) and the second, extended one
    (lines 248-791, module [V2]).  Component state held by [useState] is a
    record that every handler maps to the next record; arrays are lists,
    JavaScript numbers that are counts, identifiers or clock readings are
    integers, and the only place where the code computes with fractions
    (the progress percentage) is modelled in IEEE 754 binary64 with the
    reference operations of [SpecFloat]. *)

From Stdlib Require Import Strings.Ascii Strings.String DecimalString.
From Stdlib Require DecimalN DecimalPos.
From Stdlib Require Import ZArith NArith Bool Lia.
From Stdlib Require Import Floats.SpecFloat.
From Stdlib Require Import Reals Lra.
From stdpp Require Import base list gmap.

Local Open Scope Z_scope.

(** ** JavaScript strings *)

Module Js.

(** A string is its sequence of UTF-16 code units. *)
Definition jsstring := list N.

(** An ASCII literal of the source as a [jsstring]. *)
Definition lit (s : string) : jsstring :=
  List.map N_of_ascii (list_ascii_of_string s).

(** [WhiteSpace] and [LineTerminator] of ECMAScript, the code units that
    [String.prototype.trim] strips. *)
Definition is_white_space (c : N) : bool :=
  match c with
  | 9 | 10 | 11 | 12 | 13 | 32 | 160 | 5760
  | 8232 | 8233 | 8239 | 8287 | 12288 | 65279 => true
  | _ => (8192 <=? c) && (c <=? 8202)
  end%N.

Fixpoint trim_start (s : jsstring) : jsstring :=
  match s with
  | c :: s' => if is_white_space c then trim_start s' else s
  | [] => []
  end.

Definition trim_end (s : jsstring) : jsstring :=
  rev (trim_start (rev s)).

(** [s.trim()] *)
Definition trim (s : jsstring) : jsstring := trim_end (trim_start s).

(** [s !== ""] *)
Definition non_empty (s : jsstring) : bool :=
  match s with [] => false | _ :: _ => true end.

(** *** Numbers

    A Number is an IEEE 754 binary64 value: [prec = 53], [emax = 1024]. *)
Definition prec : Z := 53.
Definition emax : Z := 1024.

Definition Number : Type := spec_float.

(** The Number that an integer denotes (round to nearest, ties to even;
    exact below 2^53). *)
Definition of_int (z : Z) : Number := binary_normalize prec emax z 0 false.

Definition div (x y : Number) : Number := SFdiv prec emax x y.
Definition mul (x y : Number) : Number := SFmul prec emax x y.

(** The integral Numbers, as [Math.round] returns them. *)
Inductive Integral :=
| NaN
| Infinity (negative : bool)
| Int (z : Z).

(** [Math.round(x)]: the integer closest to [x], a tie going up, that is
    [floor (x + 1/2)] computed exactly. *)
Definition Math_round (x : Number) : Integral :=
  match x with
  | S754_nan => NaN
  | S754_infinity s => Infinity s
  | S754_zero _ => Int 0
  | S754_finite s m e =>
      let n := if s then Z.neg m else Z.pos m in
      match e with
      | Z.neg k => Int ((2 * n + 2 ^ Z.pos k) / 2 ^ (Z.pos k + 1))
      | _ => Int (n * 2 ^ e)
      end
  end.

Definition decimal (n : N) : jsstring :=
  lit (NilZero.string_of_uint (N.to_uint n)).

(** [String(r)] for an integral Number below 10^21 in magnitude. *)
Definition Integral_toString (r : Integral) : jsstring :=
  match r with
  | NaN => lit "NaN"
  | Infinity false => lit "Infinity"
  | Infinity true => lit "-Infinity"
  | Int (Z.neg p) => lit "-" ++ decimal (N.pos p)
  | Int z => decimal (Z.to_N z)
  end.

(** What the code takes from the language runtime and the claims do not
    depend on: [StringToNumber], the Number a string converts to when it is
    compared with a number by [==] or [!=].  [Some z] is the integer [z];
    [None] is any value no integer identifier is equal to ([NaN], a
    fraction). *)
Class Runtime := { StringToNumber : jsstring -> option Z }.

End Js.

Import Js.

(** ** Data model (second version, lines 251-273) *)

Inductive Priority := low | medium | high.

Record Task := mkTask {
  id : Z;
  titre : jsstring;
  isCompleted : bool;
  userId : option Z;
  createdAt : option Z;
  priority : option Priority
}.

(** ["tous" | "active" | "terminé" | "high-priority"] *)
Inductive FilterType := tous | active | termine | high_priority.

Record TodoListProps := mkProps {
  initialTasks : list Task;
  maxTodos : Z;
  enablePriority : bool
}.

(** The defaults of the destructured props: [[]], [100], [false]. *)
Definition default_props : TodoListProps :=
  {| initialTasks := []; maxTodos := 100; enablePriority := false |}.

Module Api.
(** [interface ApiResponse] *)
Record ApiResponse := mk {
  id : Z;
  title : jsstring;
  completed : bool;
  userId : Z
}.
End Api.

(** The argument of [supprimerTask], typed [number | string]. *)
Inductive Ident :=
| IdNumber (n : Z)
| IdString (s : jsstring).

(** The clock as a handler reads it: [Date.now()], and the successive
    [new Date()] of one run, numbered from 0. *)
Record Clock := mkClock {
  Date_now : Z;
  new_Date : nat -> Z
}.

(** What [await fetch(...)] followed by [await response.json()] yields,
    for the bodies that [ApiResponse] types: an array element is [null] or
    a record of that interface.  The responses of any status and shape are
    those of module [Raw] below. *)
Inductive Body :=
| NotAnArray
| Items (items : list (option Api.ApiResponse)).

Inductive FetchOutcome :=
| NetworkError
| InvalidJson
| Parsed (data : Body).

(** How an [async] function call ends. *)
Inductive Completion := Resolved | Rejected.

(** [alert(`Maximum ${maxTodos} todos autorisés !`)] *)
Inductive Notice := MaximumReached (max : Z).

(** ** Helpers shared by both versions *)

(** [{ ...todo, isCompleted: b }] *)
Definition with_isCompleted (b : bool) (todo : Task) : Task :=
  {| id := id todo; titre := titre todo; isCompleted := b;
     userId := userId todo; createdAt := createdAt todo;
     priority := priority todo |}.

(** [todo.priority === "high"] *)
Definition is_high (todo : Task) : bool :=
  match priority todo with Some high => true | _ => false end.

(** [todos.filter(todo => !todo.isCompleted).length] *)
Definition remainingTasks (todos : list Task) : nat :=
  length (List.filter (fun todo => negb (isCompleted todo)) todos).

(** [todos.length - remainingTasks] *)
Definition completedTasks (todos : list Task) : Z :=
  Z.of_nat (length todos) - Z.of_nat (remainingTasks todos).

(** [`${Math.round((completed / todos.length) * 100)}%`] *)
Definition percentage (completed : Z) (total : nat) : jsstring :=
  Integral_toString
    (Math_round (mul (div (of_int completed) (of_int (Z.of_nat total)))
                     (of_int 100)))
  ++ lit "%".

(** [Array.prototype.sort(compareFn)] on the elements of an array.  The
    language requires the sort to be stable, and for a comparator that is a
    consistent ordering this fixes the result; insertion from the right,
    an element going before the first element it does not compare greater
    than, computes it. *)
Section Sort.
Context {A : Type} (compareFn : A -> A -> Z).

Fixpoint sort_insert (a : A) (l : list A) : list A :=
  match l with
  | [] => [a]
  | b :: l' =>
      if compareFn a b <=? 0 then a :: l else b :: sort_insert a l'
  end.

Fixpoint sort (l : list A) : list A :=
  match l with
  | [] => []
  | a :: l' => sort_insert a (sort l')
  end.

End Sort.

(** ** The second version of the component (lines 248-791)

    A handler is the closure of the latest render: the [todos] and the
    [inputValue] it reads are those of the state it is applied to, and so
    is the [prevTodos] of its functional updates.  [fetchTodos] is the
    closure of the render whose effect started it, from which it reads the
    prop [initialTasks] only. *)

Module V2.

Record State := mkState {
  todos : list Task;
  inputValue : jsstring;
  filtre : FilterType;
  isLoading : bool;
  error : jsstring;
  lastUpdated : Z;
  selectedPriority : Priority
}.

(** The [useState] initial values. *)
Definition initial (props : TodoListProps) (clock : Clock) : State :=
  {| todos := initialTasks props; inputValue := []; filtre := tous;
     isLoading := false; error := []; lastUpdated := new_Date clock 0;
     selectedPriority := medium |}.

Definition set_todos (f : list Task -> list Task) (s : State) : State :=
  {| todos := f (todos s); inputValue := inputValue s; filtre := filtre s;
     isLoading := isLoading s; error := error s;
     lastUpdated := lastUpdated s; selectedPriority := selectedPriority s |}.

Definition setInputValue (v : jsstring) (s : State) : State :=
  {| todos := todos s; inputValue := v; filtre := filtre s;
     isLoading := isLoading s; error := error s;
     lastUpdated := lastUpdated s; selectedPriority := selectedPriority s |}.

Definition setFiltre (f : FilterType) (s : State) : State :=
  {| todos := todos s; inputValue := inputValue s; filtre := f;
     isLoading := isLoading s; error := error s;
     lastUpdated := lastUpdated s; selectedPriority := selectedPriority s |}.

Definition setIsLoading (b : bool) (s : State) : State :=
  {| todos := todos s; inputValue := inputValue s; filtre := filtre s;
     isLoading := b; error := error s;
     lastUpdated := lastUpdated s; selectedPriority := selectedPriority s |}.

Definition setError (e : jsstring) (s : State) : State :=
  {| todos := todos s; inputValue := inputValue s; filtre := filtre s;
     isLoading := isLoading s; error := e;
     lastUpdated := lastUpdated s; selectedPriority := selectedPriority s |}.

Definition setLastUpdated (d : Z) (s : State) : State :=
  {| todos := todos s; inputValue := inputValue s; filtre := filtre s;
     isLoading := isLoading s; error := error s;
     lastUpdated := d; selectedPriority := selectedPriority s |}.

Definition setSelectedPriority (p : Priority) (s : State) : State :=
  {| todos := todos s; inputValue := inputValue s; filtre := filtre s;
     isLoading := isLoading s; error := error s;
     lastUpdated := lastUpdated s; selectedPriority := p |}.

(** *** The remote loader: [fetchTodos] (lines 291-318) *)

(** [index % 3 === 0 ? "high" : index % 2 === 0 ? "medium" : "low"] *)
Definition index_priority (index : nat) : Priority :=
  if (index mod 3 =? 0)%nat then high
  else if (index mod 2 =? 0)%nat then medium
  else low.

(** The callback of [data.map]: reading a property of [null] throws. *)
Definition api_task (clock : Clock) (index : nat)
  (item : option Api.ApiResponse) : option Task :=
  match item with
  | None => None
  | Some r =>
      Some {| id := Api.id r; titre := Api.title r;
              isCompleted := Api.completed r;
              userId := Some (Api.userId r);
              createdAt := Some (new_Date clock index);
              priority := Some (index_priority index) |}
  end.

(** [items.map(callback)] from index [index] on; [None] when the callback
    throws. *)
Fixpoint map_items (clock : Clock) (index : nat)
  (items : list (option Api.ApiResponse)) : option (list Task) :=
  match items with
  | [] => Some []
  | item :: rest =>
      match api_task clock index item with
      | None => None
      | Some t =>
          match map_items clock (S index) rest with
          | None => None
          | Some ts => Some (t :: ts)
          end
      end
  end.

(** The value of [apiTasks] at the end of the [try] block, [None] when
    one of its statements threw or rejected: [fetch] on a network error,
    [response.json()] on a body that is not JSON, [data.map] when [data]
    is not an array, the callback on a [null] element. *)
Definition apiTasks (clock : Clock) (o : FetchOutcome) : option (list Task) :=
  match o with
  | NetworkError => None
  | InvalidJson => None
  | Parsed NotAnArray => None
  | Parsed (Items items) => map_items clock 0 items
  end.

(** [fetchTodos] up to its first [await]. *)
Definition fetchTodos_begin (s : State) : State :=
  setError [] (setIsLoading true s).

(** [fetchTodos] from the settlement of the request to its end:
    [try { ... setTodos([...initialTasks, ...apiTasks]) }
     catch { setError("Erreur lors du chargement") }
     finally { setIsLoading(false) }]. *)
Definition fetchTodos_end (props : TodoListProps) (clock : Clock)
  (o : FetchOutcome) (s : State) : State * Completion :=
  let s1 :=
    match apiTasks clock o with
    | Some tasks => set_todos (fun _ => initialTasks props ++ tasks) s
    | None => setError (lit "Erreur lors du chargement") s
    end in
  (setIsLoading false s1, Resolved).

(** The effect run after the first render:
    [if (initialTasks.length === 0) fetchTodos()]. *)
Definition mount (props : TodoListProps) (clock : Clock) : State :=
  let s := initial props clock in
  if (length (initialTasks props) =? 0)%nat then fetchTodos_begin s else s.

(** The effect after a later render with other props: its dependency is
    [initialTasks.length], so it runs again when that length has changed;
    [useState(initialTasks)] does not read the prop again. *)
Definition rerender (old new : TodoListProps) (s : State) : State :=
  if (length (initialTasks new) =? length (initialTasks old))%nat then s
  else if (length (initialTasks new) =? 0)%nat then fetchTodos_begin s
  else s.

(** *** The task store (lines 325-356, 404-412) *)

Definition ajouterTodo (props : TodoListProps) (clock : Clock) (s : State)
  : State * option Notice :=
  if non_empty (trim (inputValue s)) then
    if Z.of_nat (length (todos s)) >=? maxTodos props then
      (s, Some (MaximumReached (maxTodos props)))
    else
      let newTask :=
        {| id := Date_now clock;
           titre := trim (inputValue s);
           isCompleted := false;
           userId := None;
           createdAt := Some (new_Date clock 0);
           priority := Some (if enablePriority props
                             then selectedPriority s else medium) |} in
      (setLastUpdated (new_Date clock 1)
         (setInputValue []
            (set_todos (fun prevTodos => prevTodos ++ [newTask]) s)),
       None)
  else (s, None).

Definition toggleTask (i : Z) (s : State) : State :=
  set_todos
    (List.map (fun todo =>
       if id todo =? i
       then with_isCompleted (negb (isCompleted todo)) todo
       else todo))
    s.

(** [todo.id != id], the loose inequality of a number and a
    [number | string]. *)
Definition loose_neq `{Runtime} (n : Z) (i : Ident) : bool :=
  match i with
  | IdNumber m => negb (n =? m)
  | IdString str =>
      match StringToNumber str with
      | Some m => negb (n =? m)
      | None => true
      end
  end.

Definition supprimerTask `{Runtime} (i : Ident) (s : State) : State :=
  set_todos (List.filter (fun todo => loose_neq (id todo) i)) s.

Definition clearCompletedTodos (s : State) : State :=
  set_todos (List.filter (fun todo => negb (isCompleted todo))) s.

Definition marquerToutCompleted (s : State) : State :=
  set_todos (List.map (with_isCompleted true)) s.

(** *** The view (lines 358-402) *)

(** The callback of [todos.filter]. *)
Definition shown (f : FilterType) (todo : Task) : bool :=
  match f with
  | termine => isCompleted todo
  | active => negb (isCompleted todo)
  | high_priority => is_high todo && negb (isCompleted todo)
  | tous => true
  end.

(** The callback of [.sort]. *)
Definition by_priority (a b : Task) : Z :=
  if is_high a && negb (is_high b) then -1
  else if is_high b && negb (is_high a) then 1
  else 0.

Definition filteredTodos (todos : list Task) (f : FilterType) : list Task :=
  sort by_priority (List.filter (shown f) todos).

Definition calculerProgress (todos : list Task) : jsstring :=
  if (length todos =? 0)%nat then lit "0%"
  else percentage (completedTasks todos) (length todos).

(** *** The component as a transition system

    What the markup and the effect can call, one constructor per
    handler. *)
Inductive Event :=
| Change (value : jsstring)
| SelectPriority (p : Priority)
| Ajouter (clock : Clock)
| Toggle (i : Z)
| Supprimer (i : Ident)
| ClearCompleted
| MarquerTout
| ChangerFiltre (f : FilterType)
| FetchSettled (clock : Clock) (o : FetchOutcome)
| DismissError.

Definition step `{Runtime} (props : TodoListProps) (s : State) (e : Event)
  : State :=
  match e with
  | Change v => setInputValue v s
  | SelectPriority p => setSelectedPriority p s
  | Ajouter clock => fst (ajouterTodo props clock s)
  | Toggle i => toggleTask i s
  | Supprimer i => supprimerTask i s
  | ClearCompleted => clearCompletedTodos s
  | MarquerTout => marquerToutCompleted s
  | ChangerFiltre f => setFiltre f s
  | FetchSettled clock o => fst (fetchTodos_end props clock o s)
  | DismissError => setError [] s
  end.

Definition run `{Runtime} (props : TodoListProps) (s : State)
  (events : list Event) : State :=
  fold_left (step props) events s.

End V2.

(** ** The first version of the component (lines 1-246)

    Its [Task] has no [createdAt] and no [priority]; its state has no
    [error]. *)

Module V1.

Record State := mkState {
  todos : list Task;
  inputValue : jsstring;
  filtre : FilterType;
  isLoading : bool
}.

Definition initial (props : TodoListProps) : State :=
  {| todos := initialTasks props; inputValue := []; filtre := tous;
     isLoading := false |}.

Definition setTodos (l : list Task) (s : State) : State :=
  {| todos := l; inputValue := inputValue s; filtre := filtre s;
     isLoading := isLoading s |}.

Definition setInputValue (v : jsstring) (s : State) : State :=
  {| todos := todos s; inputValue := v; filtre := filtre s;
     isLoading := isLoading s |}.

Definition setIsLoading (b : bool) (s : State) : State :=
  {| todos := todos s; inputValue := inputValue s; filtre := filtre s;
     isLoading := b |}.

Definition api_task (item : option Api.ApiResponse) : option Task :=
  match item with
  | None => None
  | Some r =>
      Some {| id := Api.id r; titre := Api.title r;
              isCompleted := Api.completed r;
              userId := Some (Api.userId r);
              createdAt := None; priority := None |}
  end.

Fixpoint map_items (items : list (option Api.ApiResponse))
  : option (list Task) :=
  match items with
  | [] => Some []
  | item :: rest =>
      match api_task item with
      | None => None
      | Some t =>
          match map_items rest with
          | None => None
          | Some ts => Some (t :: ts)
          end
      end
  end.

Definition apiTasks (o : FetchOutcome) : option (list Task) :=
  match o with
  | NetworkError => None
  | InvalidJson => None
  | Parsed NotAnArray => None
  | Parsed (Items items) => map_items items
  end.

(** The effect (lines 26-41): [setIsLoading(true)], then the promise chain
    [fetch(...).then(...).then(data => { setTodos(apiTasks);
    setIsLoading(false) })], which has no rejection handler. *)
Definition mount (props : TodoListProps) : State :=
  setIsLoading true (initial props).

Definition fetch_settled (o : FetchOutcome) (s : State)
  : State * Completion :=
  match apiTasks o with
  | Some tasks => (setIsLoading false (setTodos tasks s), Resolved)
  | None => (s, Rejected)
  end.

Definition ajouterTodo (clock : Clock) (s : State) : State :=
  if non_empty (trim (inputValue s)) then
    let newTask :=
      {| id := Date_now clock; titre := inputValue s; isCompleted := false;
         userId := None; createdAt := None; priority := None |} in
    setInputValue [] (setTodos (todos s ++ [newTask]) s)
  else s.

Definition toggleTask (i : Z) (s : State) : State :=
  setTodos
    (List.map (fun todo =>
       if id todo =? i
       then with_isCompleted (negb (isCompleted todo)) todo
       else todo) (todos s))
    s.

(** [todo.id !== id], the strict inequality of a number and the argument:
    a number and a string are never strictly equal. *)
Definition strict_neq (n : Z) (i : Ident) : bool :=
  match i with
  | IdNumber m => negb (n =? m)
  | IdString _ => true
  end.

Definition supprimerTask (i : Ident) (s : State) : State :=
  setTodos (List.filter (fun todo => strict_neq (id todo) i) (todos s)) s.

(** The callback of [todos.filter]. *)
Definition shown (f : FilterType) (todo : Task) : bool :=
  match f with
  | termine => isCompleted todo
  | active => negb (isCompleted todo)
  | _ => true
  end.

Definition filteredTodos (todos : list Task) (f : FilterType) : list Task :=
  List.filter (shown f) todos.

Definition calculerProgress (todos : list Task) : jsstring :=
  percentage (completedTasks todos) (length todos).

Definition clearCompletedTodos (s : State) : State :=
  setTodos (List.filter (fun todo => negb (isCompleted todo)) (todos s)) s.

Definition marquerToutCompleted (s : State) : State :=
  setTodos (List.map (with_isCompleted true) (todos s)) s.

End V1.

(** ** The view on the array heap

    [todos.filter(...)] allocates a new array and [.sort(...)] sorts the
    array it is called on in place and returns it.  Arrays live in a heap
    keyed by reference; the task objects they hold are not written by
    either call. *)
Module Heap.

Definition alloc (l : list Task) (h : gmap positive (list Task))
  : positive * gmap positive (list Task) :=
  let r := fresh (dom h) in (r, <[r := l]> h).

Definition Array_filter (f : Task -> bool) (r : positive)
  (h : gmap positive (list Task))
  : option (positive * gmap positive (list Task)) :=
  match h !! r with
  | Some l => Some (alloc (List.filter f l) h)
  | None => None
  end.

Definition Array_sort (compareFn : Task -> Task -> Z) (r : positive)
  (h : gmap positive (list Task))
  : option (positive * gmap positive (list Task)) :=
  match h !! r with
  | Some l => Some (r, <[r := sort compareFn l]> h)
  | None => None
  end.

(** [todos.filter(...).sort(...)] of the second version. *)
Definition filteredTodos (todos : positive) (f : FilterType)
  (h : gmap positive (list Task))
  : option (positive * gmap positive (list Task)) :=
  match Array_filter (V2.shown f) todos h with
  | Some (r, h1) => Array_sort V2.by_priority r h1
  | None => None
  end.

(** [todos.filter(...)] of the first version. *)
Definition filteredTodos1 (todos : positive) (f : FilterType)
  (h : gmap positive (list Task))
  : option (positive * gmap positive (list Task)) :=
  Array_filter (V1.shown f) todos h.

End Heap.

(** ** Vocabulary of the statements *)

(** The identifiers of a task list, in order. *)
Definition ids (l : list Task) : list Z := List.map id l.

(** The request failed, among the typed responses: [fetch] rejected, the
    body was not JSON, the parsed body was not an array, or one of its
    elements was [null]. *)
Definition fetch_failed (o : FetchOutcome) : Prop :=
  o = NetworkError \/ o = InvalidJson \/ o = Parsed NotAnArray \/
  exists items, o = Parsed (Items items) /\ In None items.

(** An event brings no identifier that is already in use: the clock of an
    add reads a value no task has as [id], and the records of a settled
    request have identifiers distinct from each other and from those of
    [initialTasks]. *)
Definition brings_fresh_ids (props : TodoListProps) (s : V2.State)
  (e : V2.Event) : Prop :=
  match e with
  | V2.Ajouter clock => ~ In (Date_now clock) (ids (V2.todos s))
  | V2.FetchSettled clock o =>
      forall tasks, V2.apiTasks clock o = Some tasks ->
                    NoDup (ids (initialTasks props ++ tasks))
  | _ => True
  end.

Fixpoint fresh_along `{Runtime} (props : TodoListProps) (s : V2.State)
  (events : list V2.Event) : Prop :=
  match events with
  | [] => True
  | e :: rest =>
      brings_fresh_ids props s e /\ fresh_along props (V2.step props s e) rest
  end.

(** What the markup (lines 475-679) lets happen in a state: the input, the
    priority select and the add button are disabled while [isLoading]; a
    task is toggled or deleted from its line in the view, with its numeric
    [id]; the two footer buttons are disabled when they would change
    nothing; the high-priority filter and the select exist only with
    [enablePriority]; the error can be dismissed when there is one; and a
    request settles while one is pending. *)
Definition enabled (props : TodoListProps) (s : V2.State) (e : V2.Event)
  : Prop :=
  match e with
  | V2.Change _ => V2.isLoading s = false
  | V2.SelectPriority _ =>
      enablePriority props = true /\ V2.isLoading s = false
  | V2.Ajouter _ => V2.isLoading s = false
  | V2.Toggle i =>
      In i (ids (V2.filteredTodos (V2.todos s) (V2.filtre s)))
  | V2.Supprimer i =>
      exists n, i = IdNumber n /\
                In n (ids (V2.filteredTodos (V2.todos s) (V2.filtre s)))
  | V2.ClearCompleted => completedTasks (V2.todos s) <> 0
  | V2.MarquerTout => remainingTasks (V2.todos s) <> 0%nat
  | V2.ChangerFiltre f => f = high_priority -> enablePriority props = true
  | V2.FetchSettled _ _ => V2.isLoading s = true
  | V2.DismissError => V2.error s <> []
  end.

Fixpoint enabled_along `{Runtime} (props : TodoListProps) (s : V2.State)
  (events : list V2.Event) : Prop :=
  match events with
  | [] => True
  | e :: rest =>
      enabled props s e /\ enabled_along props (V2.step props s e) rest
  end.

(** No request settles in the events. *)
Definition still_pending (events : list V2.Event) : Prop :=
  forall clock o, ~ In (V2.FetchSettled clock o) events.

(** The real numbers that binary64 values stand for, to state how far a
    computed Number is from the exact one. *)
Module Binary64.

Local Open Scope R_scope.

(** [2^e] *)
Definition bpow (e : Z) : R := powerRZ 2 e.

(** The real [x] is where the record of a shifted mantissa says: at
    [shr_m], or between it and the next integer, below, at or above the
    middle as the round and sticky bits tell. *)
Definition inloc (x : R) (mrs : shr_record) : Prop :=
  match shr_r mrs, shr_s mrs with
  | false, false => x = IZR (shr_m mrs)
  | false, true => IZR (shr_m mrs) < x < IZR (shr_m mrs) + /2
  | true, false => x = IZR (shr_m mrs) + /2
  | true, true => IZR (shr_m mrs) + /2 < x < IZR (shr_m mrs) + 1
  end.

End Binary64.

(** ** Sample data *)

(** A runtime for the examples: [StringToNumber] on unsigned decimal
    integer literals surrounded by white space, every other string standing
    for a value that no identifier equals. *)
Definition digit_value (c : N) : option Z :=
  if ((48 <=? c) && (c <=? 57))%N then Some (Z.of_N c - 48) else None.

Fixpoint decimal_value (acc : Z) (s : jsstring) : option Z :=
  match s with
  | [] => Some acc
  | c :: s' =>
      match digit_value c with
      | Some d => decimal_value (10 * acc + d) s'
      | None => None
      end
  end.

Definition decimal_runtime : Runtime :=
  {| StringToNumber := fun s => decimal_value 0 (trim s) |}.

Definition noon : Clock :=
  {| Date_now := 1700000000000; new_Date := fun _ => 1700000000000 |}.

Definition record (i : Z) (done : bool) : Api.ApiResponse :=
  Api.mk i (lit "delectus aut autem") done 1.

Definition task (i : Z) (done : bool) (p : Priority) : Task :=
  {| id := i; titre := lit "Faire les courses"; isCompleted := done;
     userId := None; createdAt := None; priority := Some p |}.

(** The tasks that [App] of the first version passes (lines 236-239):
    ['Première task'] and ['Deuxième todo']. *)
Definition App1_props : TodoListProps :=
  {| initialTasks :=
       [ {| id := 1; titre := lit "Premi" ++ [232%N] ++ lit "re task";
            isCompleted := false; userId := None; createdAt := None;
            priority := None |};
         {| id := 2; titre := lit "Deuxi" ++ [232%N] ++ lit "me todo";
            isCompleted := true; userId := None; createdAt := None;
            priority := None |} ];
     maxTodos := 50;
     enablePriority := false |}.

Definition three_tasks : list Task :=
  [task 1 false low; task 2 true high; task 3 false high].

(** A parent that passes three tasks, and later none. *)
Definition seeded_props : TodoListProps :=
  {| initialTasks := three_tasks; maxTodos := 100; enablePriority := true |}.

Definition emptied_props : TodoListProps :=
  {| initialTasks := []; maxTodos := 100; enablePriority := true |}.

Definition idle (l : list Task) (input : string) : V2.State :=
  {| V2.todos := l; V2.inputValue := lit input; V2.filtre := tous;
     V2.isLoading := false; V2.error := []; V2.lastUpdated := 0;
     V2.selectedPriority := medium |}.

(** ** The markup of the second version

    The conditions and the small functions of the JSX (lines 378-396,
    414-440 and 475-720), as functions of the state. *)
Module Markup.

(** [handleKeyPress] (lines 378-382): [if (e.key === "Enter")
    ajouterTodo()]. *)
Definition handleKeyPress (props : TodoListProps) (clock : Clock)
  (key : jsstring) (s : V2.State) : V2.State * option Notice :=
  if decide (key = lit "Enter") then V2.ajouterTodo props clock s
  else (s, None).

(** [handleTodoClick] (lines 393-396), its [console.log] left out. *)
Definition handleTodoClick (task : Task) (s : V2.State) : V2.State :=
  V2.toggleTask (id task) s.

(** [getPriorityColor] (lines 414-425), on the [priority] of a task. *)
Definition getPriorityColor (p : option Priority) : jsstring :=
  match p with
  | Some high => lit "#ff4444"
  | Some medium => lit "#ffaa00"
  | Some low => lit "#44ff44"
  | None => lit "#cccccc"
  end.

(** [filteredTodos.length === 0 && !isLoading && todos.length > 0]
    (lines 439-440). *)
Definition shouldShowEmptyState (s : V2.State) : bool :=
  (length (V2.filteredTodos (V2.todos s) (V2.filtre s)) =? 0)%nat
  && negb (V2.isLoading s)
  && (0 <? length (V2.todos s))%nat.

(** [todos.length === 0 && !isLoading && !error] (line 636). *)
Definition showWelcome (s : V2.State) : bool :=
  (length (V2.todos s) =? 0)%nat
  && negb (V2.isLoading s)
  && negb (non_empty (V2.error s)).

(** The [disabled] of the add button (lines 504-506):
    [isLoading || !inputValue.trim() || todos.length >= maxTodos]. *)
Definition add_disabled (props : TodoListProps) (s : V2.State) : bool :=
  V2.isLoading s
  || negb (non_empty (trim (V2.inputValue s)))
  || (Z.of_nat (length (V2.todos s)) >=? maxTodos props).

(** The [disabled] of the clear button (line 663):
    [completedTasks === 0]. *)
Definition clear_disabled (s : V2.State) : bool :=
  completedTasks (V2.todos s) =? 0.

(** The [disabled] of the mark-all button (line 672):
    [remainingTasks === 0]. *)
Definition mark_all_disabled (s : V2.State) : bool :=
  (remainingTasks (V2.todos s) =? 0)%nat.

(** The count on the high-priority filter button (lines 547-548):
    [todos.filter((t) => t.priority === "high" && !t.isCompleted).length]. *)
Definition high_active_count (todos : list Task) : nat :=
  length (List.filter (fun t => is_high t && negb (isCompleted t)) todos).

(** [t.priority === p] *)
Definition has_priority (p : Priority) (t : Task) : bool :=
  match priority t, p with
  | Some low, low | Some medium, medium | Some high, high => true
  | _, _ => false
  end.

(** The counts of the statistics (lines 701, 707, 713):
    [todos.filter((t) => t.priority === p).length]. *)
Definition priority_count (p : Priority) (todos : list Task) : nat :=
  length (List.filter (has_priority p) todos).

(** [0.8], the Number nearest to 8/10. *)
Definition eight_tenths : Number :=
  S754_finite false 7205759403792794 (-53).

(** [x > y] on Numbers; false when one of them is [NaN]. *)
Definition Number_gt (x y : Number) : bool := SFltb y x.

(** The warning of the limit indicator (line 515):
    [todos.length > maxTodos * 0.8]. *)
Definition limit_warning (props : TodoListProps) (s : V2.State) : bool :=
  Number_gt (of_int (Z.of_nat (length (V2.todos s))))
    (mul (of_int (maxTodos props)) eight_tenths).

End Markup.

(** ** The first version as a transition system *)
Module V1Run.

Definition setFiltre (f : FilterType) (s : V1.State) : V1.State :=
  {| V1.todos := V1.todos s; V1.inputValue := V1.inputValue s;
     V1.filtre := f; V1.isLoading := V1.isLoading s |}.

(** What the markup of the first version can call; the request of its
    effect settles once. *)
Inductive Event :=
| Change (value : jsstring)
| Ajouter (clock : Clock)
| Toggle (i : Z)
| Supprimer (i : Ident)
| ClearCompleted
| MarquerTout
| ChangerFiltre (f : FilterType).

Definition step (s : V1.State) (e : Event) : V1.State :=
  match e with
  | Change v => V1.setInputValue v s
  | Ajouter clock => V1.ajouterTodo clock s
  | Toggle i => V1.toggleTask i s
  | Supprimer i => V1.supprimerTask i s
  | ClearCompleted => V1.clearCompletedTodos s
  | MarquerTout => V1.marquerToutCompleted s
  | ChangerFiltre f => setFiltre f s
  end.

Definition run (s : V1.State) (events : list Event) : V1.State :=
  fold_left step events s.

End V1Run.

(** The trimmed string has white space at neither end. *)
Definition trimmed (s : jsstring) : Prop :=
  (forall c rest, s = c :: rest -> is_white_space c = false) /\
  (forall c front, s = front ++ [c] -> is_white_space c = false).

(** ** The loader on the response as the runtime delivers it

    [fetchTodos] types the parsed body [any] (line 301): it reads neither
    the status of the response nor the shape of the body.  This module is
    the loader on every response [fetch] can deliver, with the mapped
    fields typed [any]; on the bodies that [ApiResponse] types it is
    [V2.fetchTodos_end]. *)

Module Raw.

(** A JSON value, what [response.json()] resolves to. *)
#[warnings="-register-all"] Inductive Json :=
| JNull
| JBool (b : bool)
| JNumber (x : Number)
| JString (s : jsstring)
| JArray (items : list Json)
| JObject (fields : list (jsstring * Json)).

(** A value typed [any] here: [undefined] ([None]) or a JSON value. *)
Definition any : Type := option Json.

(** What the request comes to: [fetch] rejects ([NoResponse]), or it
    resolves with a response, whose [ok] tells a 2xx status and whose body
    [response.json()] parses, or rejects when it is not JSON ([None]). *)
Inductive Response :=
| NoResponse
| Responded (ok : bool) (body : option Json).

(** The own property [key] of a parsed object, [undefined] when there is
    none. *)
Fixpoint field (key : jsstring) (fields : list (jsstring * Json)) : any :=
  match fields with
  | [] => None
  | (k, v) :: rest => if decide (k = key) then Some v else field key rest
  end.

(** [item.key], for the four keys the loader reads, which no prototype
    defines: a TypeError ([None]) on [null], the field of an object,
    [undefined] on a boolean, a number, a string or an array. *)
Definition get (item : Json) (key : string) : option any :=
  match item with
  | JNull => None
  | JObject fields => Some (field (lit key) fields)
  | JBool _ | JNumber _ | JString _ | JArray _ => Some None
  end.

(** The object the callback of [data.map] builds (lines 302-309): the four
    fields copied from the item are whatever the item holds. *)
Module Task.
Record t := mk {
  id : any;
  titre : any;
  isCompleted : any;
  userId : any;
  createdAt : option Z;
  priority : option Priority
}.
End Task.

(** The callback of [data.map]; [None] when it throws. *)
Definition api_task (clock : Clock) (index : nat) (item : Json)
  : option Task.t :=
  match get item "id", get item "title", get item "completed",
        get item "userId" with
  | Some i, Some t, Some c, Some u =>
      Some {| Task.id := i; Task.titre := t; Task.isCompleted := c;
              Task.userId := u;
              Task.createdAt := Some (new_Date clock index);
              Task.priority := Some (V2.index_priority index) |}
  | _, _, _, _ => None
  end.

Fixpoint map_items (clock : Clock) (index : nat) (items : list Json)
  : option (list Task.t) :=
  match items with
  | [] => Some []
  | item :: rest =>
      match api_task clock index item with
      | None => None
      | Some t =>
          match map_items clock (S index) rest with
          | None => None
          | Some ts => Some (t :: ts)
          end
      end
  end.

(** The value of [apiTasks] at the end of the [try] block, [None] when one
    of its statements threw or rejected.  [data.map] is a function only
    when [data] is an array: on [null] reading it throws, and on any other
    JSON value it is [undefined] or a JSON value, and calling it throws. *)
Definition apiTasks (clock : Clock) (r : Response) : option (list Task.t) :=
  match r with
  | Responded _ (Some (JArray items)) => map_items clock 0 items
  | _ => None
  end.

(** A task of the typed list as the value it is at run time. *)
Definition of_task (todo : Task) : Task.t :=
  {| Task.id := Some (JNumber (of_int (id todo)));
     Task.titre := Some (JString (titre todo));
     Task.isCompleted := Some (JBool (isCompleted todo));
     Task.userId :=
       match userId todo with
       | Some u => Some (JNumber (of_int u))
       | None => None
       end;
     Task.createdAt := createdAt todo;
     Task.priority := priority todo |}.

(** The state of the component, with the tasks as they are at run time. *)
Record State := mkState {
  todos : list Task.t;
  inputValue : jsstring;
  filtre : FilterType;
  isLoading : bool;
  error : jsstring;
  lastUpdated : Z;
  selectedPriority : Priority
}.

Definition setTodos (l : list Task.t) (s : State) : State :=
  {| todos := l; inputValue := inputValue s; filtre := filtre s;
     isLoading := isLoading s; error := error s;
     lastUpdated := lastUpdated s; selectedPriority := selectedPriority s |}.

Definition setIsLoading (b : bool) (s : State) : State :=
  {| todos := todos s; inputValue := inputValue s; filtre := filtre s;
     isLoading := b; error := error s;
     lastUpdated := lastUpdated s; selectedPriority := selectedPriority s |}.

Definition setError (e : jsstring) (s : State) : State :=
  {| todos := todos s; inputValue := inputValue s; filtre := filtre s;
     isLoading := isLoading s; error := e;
     lastUpdated := lastUpdated s; selectedPriority := selectedPriority s |}.

(** [fetchTodos] from the settlement of the request to its end (lines
    295-317):
    [try { ... setTodos([...initialTasks, ...apiTasks]) }
     catch { setError("Erreur lors du chargement") }
     finally { setIsLoading(false) }]. *)
Definition fetchTodos_end (props : TodoListProps) (clock : Clock)
  (r : Response) (s : State) : State * Completion :=
  let s1 :=
    match apiTasks clock r with
    | Some tasks =>
        setTodos (List.map of_task (initialTasks props) ++ tasks) s
    | None => setError (lit "Erreur lors du chargement") s
    end in
  (setIsLoading false s1, Resolved).

(** The typed responses and states as the values they are at run time. *)
Definition of_record (r : Api.ApiResponse) : Json :=
  JObject [ (lit "id", JNumber (of_int (Api.id r)));
            (lit "title", JString (Api.title r));
            (lit "completed", JBool (Api.completed r));
            (lit "userId", JNumber (of_int (Api.userId r))) ].

Definition of_item (item : option Api.ApiResponse) : Json :=
  match item with
  | Some r => of_record r
  | None => JNull
  end.

(** A body that is not an array stands for any of them; the empty object is
    one. *)
Definition of_outcome (o : FetchOutcome) : Response :=
  match o with
  | NetworkError => NoResponse
  | InvalidJson => Responded true None
  | Parsed NotAnArray => Responded true (Some (JObject []))
  | Parsed (Items items) =>
      Responded true (Some (JArray (List.map of_item items)))
  end.

Definition of_state (s : V2.State) : State :=
  {| todos := List.map of_task (V2.todos s);
     inputValue := V2.inputValue s; filtre := V2.filtre s;
     isLoading := V2.isLoading s; error := V2.error s;
     lastUpdated := V2.lastUpdated s;
     selectedPriority := V2.selectedPriority s |}.

(** The failures the [try] block meets: no response (a network error), a
    body that is not JSON, a body that is not an array, an array with a
    [null] element. *)
Definition fails (r : Response) : Prop :=
  match r with
  | NoResponse => True
  | Responded _ None => True
  | Responded _ (Some (JArray items)) => In JNull items
  | Responded _ (Some _) => True
  end.

End Raw.

(** * Properties *)

(** ** Lists and state records *)

Lemma non_empty_false (s : jsstring) : non_empty s = false <-> s = [].
Proof. destruct s; simpl; split; intros; congruence. Qed.

Lemma non_empty_true (s : jsstring) : non_empty s = true <-> s <> [].
Proof. destruct s; simpl; split; intros; congruence. Qed.

Lemma filter_all {A} (f : A -> bool) (l : list A) :
  Forall (fun t => f t = true) l -> List.filter f l = l.
Proof.
  induction 1 as [|a l Ha _ IH]; simpl; [reflexivity|].
  now rewrite Ha, IH.
Qed.

Lemma filter_none {A} (f : A -> bool) (l : list A) :
  Forall (fun t => f t = true) l -> List.filter (fun t => negb (f t)) l = [].
Proof.
  induction 1 as [|a l Ha _ IH]; simpl; [reflexivity|].
  now rewrite Ha.
Qed.

Lemma filter_filter_same {A} (f : A -> bool) (l : list A) :
  List.filter f (List.filter f l) = List.filter f l.
Proof.
  induction l as [|a l IH]; simpl; [reflexivity|].
  destruct (f a) eqn:E; simpl; [rewrite E, IH|]; auto.
Qed.

Lemma filter_sublist {A} (f : A -> bool) (l : list A) :
  sublist (List.filter f l) l.
Proof.
  induction l as [|a l IH]; simpl; [constructor|].
  destruct (f a); now constructor.
Qed.

Lemma Forall_filter_true {A} (f : A -> bool) (l : list A) :
  Forall (fun t => f t = true) (List.filter f l).
Proof.
  induction l as [|a l IH]; simpl; [constructor|].
  destruct (f a) eqn:E; [constructor|]; assumption.
Qed.

Lemma Forall_filter_false {A} (f : A -> bool) (l : list A) :
  Forall (fun t => f t = false) (List.filter (fun t => negb (f t)) l).
Proof.
  induction l as [|a l IH]; simpl; [constructor|].
  destruct (f a) eqn:E; simpl; [|constructor]; assumption.
Qed.

Lemma set_todos_id (s : V2.State) (f : list Task -> list Task) :
  f (V2.todos s) = V2.todos s -> V2.set_todos f s = s.
Proof. destruct s; unfold V2.set_todos; simpl. now intros ->. Qed.

Lemma set_todos_set_todos (s : V2.State) (f g : list Task -> list Task) :
  V2.set_todos g (V2.set_todos f s) = V2.set_todos (fun l => g (f l)) s.
Proof. reflexivity. Qed.

(** ** The task store *)

(** C1.  [ajouterTodo] leaves the state as it is when the trimmed input is
    empty or the list already holds [maxTodos] tasks or more; otherwise it
    appends exactly one task, not completed, titled with the trimmed input
    and identified by the clock, so the list grows by one. *)
Theorem ajouterTodo_appends_or_rejects
  (props : TodoListProps) (clock : Clock) (s : V2.State) :
  (trim (V2.inputValue s) = [] \/
   maxTodos props <= Z.of_nat (length (V2.todos s)) ->
   fst (V2.ajouterTodo props clock s) = s) /\
  (trim (V2.inputValue s) <> [] /\
   Z.of_nat (length (V2.todos s)) < maxTodos props ->
   exists t,
     V2.todos (fst (V2.ajouterTodo props clock s)) = V2.todos s ++ [t] /\
     isCompleted t = false /\
     titre t = trim (V2.inputValue s) /\
     id t = Date_now clock /\
     length (V2.todos (fst (V2.ajouterTodo props clock s)))
     = S (length (V2.todos s))).
Proof.
  unfold V2.ajouterTodo. split.
  - intros [Hempty | Hfull].
    + apply non_empty_false in Hempty. now rewrite Hempty.
    + destruct (non_empty _); [|reflexivity].
      destruct (Z.geb_spec (Z.of_nat (length (V2.todos s))) (maxTodos props));
        [reflexivity | lia].
  - intros [Hinput Hroom].
    apply non_empty_true in Hinput. rewrite Hinput.
    destruct (Z.geb_spec (Z.of_nat (length (V2.todos s))) (maxTodos props));
      [lia |].
    eexists. simpl. split; [reflexivity|].
    repeat split. rewrite length_app. simpl. lia.
Qed.

(** The scenarios of the specification: an add, an add of the empty
    string, and an add at the limit. *)
Example ajouterTodo_scenarios :
  ids (V2.todos (fst (V2.ajouterTodo default_props noon
                        (idle [] " Buy milk ")))) = [1700000000000] /\
  List.map titre (V2.todos (fst (V2.ajouterTodo default_props noon
                                   (idle [] " Buy milk "))))
  = [lit "Buy milk"] /\
  V2.ajouterTodo default_props noon (idle [] "  ") = (idle [] "  ", None) /\
  V2.ajouterTodo {| initialTasks := []; maxTodos := 2;
                    enablePriority := false |} noon
    (idle [task 1 false low; task 2 false low] "x")
  = (idle [task 1 false low; task 2 false low] "x", Some (MaximumReached 2)).
Proof. repeat split. Qed.

(** C7.  Two calls of [toggleTask] with the same identifier give back the
    state they started from, and one call with an identifier that no task
    has leaves the state as it is. *)
Theorem toggleTask_involutive (i : Z) (s : V2.State) :
  V2.toggleTask i (V2.toggleTask i s) = s /\
  (~ In i (ids (V2.todos s)) -> V2.toggleTask i s = s).
Proof.
  unfold V2.toggleTask. split.
  - rewrite set_todos_set_todos. apply set_todos_id.
    rewrite List.map_map. rewrite <- (List.map_id (V2.todos s)) at 2.
    apply List.map_ext. intros t.
    destruct (Z.eqb_spec (id t) i) as [E|E]; simpl.
    + rewrite <- E, Z.eqb_refl. destruct t as [? ? []]; reflexivity.
    + destruct (Z.eqb_spec (id t) i); [contradiction | reflexivity].
  - intros Hnone. apply set_todos_id.
    rewrite <- (List.map_id (V2.todos s)) at 2.
    apply List.map_ext_in. intros t Ht.
    destruct (Z.eqb_spec (id t) i) as [E|E]; [|reflexivity].
    exfalso. apply Hnone. unfold ids. rewrite <- E. now apply List.in_map.
Qed.

(** C6.  [supprimerTask] keeps, in their order, exactly the tasks whose
    [id] is not equal to the identifier (for a number: the tasks with
    another [id]); when no task has the identifier the state is unchanged;
    and a second call with the same identifier changes nothing more. *)
Theorem supprimerTask_removes `{Runtime} (i : Ident) (s : V2.State) :
  (forall t, In t (V2.todos (V2.supprimerTask i s)) <->
             In t (V2.todos s) /\ V2.loose_neq (id t) i = true) /\
  sublist (V2.todos (V2.supprimerTask i s)) (V2.todos s) /\
  (forall n t, V2.loose_neq (id t) (IdNumber n) = false <-> id t = n) /\
  ((forall t, In t (V2.todos s) -> V2.loose_neq (id t) i = true) ->
   V2.supprimerTask i s = s) /\
  V2.supprimerTask i (V2.supprimerTask i s) = V2.supprimerTask i s.
Proof.
  split; [|split; [|split; [|split]]].
  - intros t. simpl. apply List.filter_In.
  - apply filter_sublist.
  - intros n t. simpl. rewrite negb_false_iff. apply Z.eqb_eq.
  - intros Hnone. apply set_todos_id. apply filter_all.
    now apply List.Forall_forall.
  - unfold V2.supprimerTask. destruct s; unfold V2.set_todos; simpl.
    now rewrite filter_filter_same.
Qed.

Example supprimerTask_by_number_or_string :
  ids (V2.todos (@V2.supprimerTask decimal_runtime (IdNumber 2)
                   (idle three_tasks ""))) = [1; 3] /\
  ids (V2.todos (@V2.supprimerTask decimal_runtime (IdString (lit "2"))
                   (idle three_tasks ""))) = [1; 3] /\
  ids (V2.todos (@V2.supprimerTask decimal_runtime (IdNumber 9)
                   (idle three_tasks ""))) = [1; 2; 3].
Proof. repeat split. Qed.

(** ** The remote loader *)

Lemma map_items_null (clock : Clock) (items : list (option Api.ApiResponse)) :
  In None items -> forall index, V2.map_items clock index items = None.
Proof.
  induction items as [|item rest IH]; intros Hin index; [destruct Hin|].
  destruct Hin as [-> | Hin]; [reflexivity|].
  simpl. destruct (V2.api_task clock index item); [|reflexivity].
  now rewrite IH.
Qed.

Lemma apiTasks_failed (clock : Clock) (o : FetchOutcome) :
  fetch_failed o -> V2.apiTasks clock o = None.
Proof.
  intros [-> | [-> | [-> | (items & -> & Hin)]]]; try reflexivity.
  simpl. now apply map_items_null.
Qed.

Lemma map_items_lookup (clock : Clock)
  (items : list (option Api.ApiResponse)) :
  forall index tasks,
    V2.map_items clock index items = Some tasks ->
    length tasks = length items /\
    forall k t, tasks !! k = Some t ->
                priority t = Some (V2.index_priority (index + k)).
Proof.
  induction items as [|item rest IH]; intros index tasks Hmap; simpl in Hmap.
  - injection Hmap as <-. split; [reflexivity|]. intros k t Hk. discriminate.
  - destruct item as [r|]; simpl in Hmap; [|discriminate].
    destruct (V2.map_items clock (S index) rest) as [ts|] eqn:Hrest;
      [|discriminate].
    injection Hmap as <-. destruct (IH _ _ Hrest) as [Hlen Hprio].
    split; [simpl; now rewrite Hlen|].
    intros [|k] t Hk; simpl in Hk.
    + injection Hk as <-. simpl. now rewrite Nat.add_0_r.
    + rewrite (Hprio k t Hk). do 2 f_equal. lia.
Qed.

(** A task added by [ajouterTodo] while the request is pending is gone
    once the request settles; the markup disables the input and the button
    while [isLoading], the function itself does not look at it. *)
Example ajouterTodo_while_loading_is_lost :
  V2.isLoading
    (fst (V2.ajouterTodo default_props noon
            (V2.setInputValue (lit "Acheter du lait")
               (V2.mount default_props noon)))) = true /\
  ids (V2.todos
         (fst (V2.ajouterTodo default_props noon
                 (V2.setInputValue (lit "Acheter du lait")
                    (V2.mount default_props noon))))) = [1700000000000] /\
  ids (V2.todos
         (fst (V2.fetchTodos_end default_props noon
                 (Parsed (Items [Some (record 7 false)]))
                 (fst (V2.ajouterTodo default_props noon
                         (V2.setInputValue (lit "Acheter du lait")
                            (V2.mount default_props noon))))))) = [7].
Proof. repeat split. Qed.

(** C2, as stated, fails.  Second version: the component is mounted with
    three tasks, so no request starts; its parent then passes an empty
    [initialTasks], the effect runs again and starts a request; when the
    request settles the three tasks are gone.  First version: the two
    tasks [App] passes are gone once the request settles.  In both the list
    afterwards is not the list before followed by anything. *)
Lemma fetch_settled_drops_tasks :
  (ids (V2.todos (V2.rerender seeded_props emptied_props
                    (V2.mount seeded_props noon))) = [1; 2; 3] /\
   V2.isLoading (V2.rerender seeded_props emptied_props
                   (V2.mount seeded_props noon)) = true /\
   ids (V2.todos
          (fst (V2.fetchTodos_end emptied_props noon
                  (Parsed (Items [Some (record 7 false)]))
                  (V2.rerender seeded_props emptied_props
                     (V2.mount seeded_props noon))))) = [7] /\
   forall fetched,
     V2.todos
       (fst (V2.fetchTodos_end emptied_props noon
               (Parsed (Items [Some (record 7 false)]))
               (V2.rerender seeded_props emptied_props
                  (V2.mount seeded_props noon))))
     <> V2.todos (V2.rerender seeded_props emptied_props
                    (V2.mount seeded_props noon)) ++ fetched) /\
  (ids (V1.todos (V1.mount App1_props)) = [1; 2] /\
   ids (V1.todos (fst (V1.fetch_settled
                         (Parsed (Items [Some (record 7 false)]))
                         (V1.mount App1_props)))) = [7] /\
   forall fetched,
     V1.todos (fst (V1.fetch_settled
                      (Parsed (Items [Some (record 7 false)]))
                      (V1.mount App1_props)))
     <> V1.todos (V1.mount App1_props) ++ fetched).
Proof.
  split; repeat split.
  - intros fetched Heq. apply (f_equal ids) in Heq. discriminate.
  - intros fetched Heq. apply (f_equal ids) in Heq. discriminate.
Qed.

(** What [fetchTodos] sets: the [initialTasks] of the render that started
    the request followed by the fetched tasks. *)
Lemma fetchTodos_end_sets (props : TodoListProps) (clock : Clock)
  (o : FetchOutcome) (s : V2.State) (tasks : list Task) :
  V2.apiTasks clock o = Some tasks ->
  V2.todos (fst (V2.fetchTodos_end props clock o s))
  = initialTasks props ++ tasks.
Proof. intros Hok. unfold V2.fetchTodos_end. now rewrite Hok. Qed.

(** C2, amended.  When the request settles with tasks, the list becomes
    the [initialTasks] of the render that started the request followed by
    the fetched tasks, whatever the list held: that is the list before
    followed by the fetched tasks exactly when the list before is that
    [initialTasks], and a task is in the list afterwards exactly when it
    is one of [initialTasks] or one of the fetched tasks.  A request is
    only started with an empty [initialTasks], at mount and after a later
    render, and then the list afterwards is the fetched tasks. *)
Theorem fetchTodos_end_replaces
  (props : TodoListProps) (clock : Clock) (o : FetchOutcome)
  (s : V2.State) (tasks : list Task) :
  V2.apiTasks clock o = Some tasks ->
  V2.todos (fst (V2.fetchTodos_end props clock o s))
  = initialTasks props ++ tasks /\
  (V2.todos (fst (V2.fetchTodos_end props clock o s)) = V2.todos s ++ tasks
   <-> V2.todos s = initialTasks props) /\
  (forall t, In t (V2.todos (fst (V2.fetchTodos_end props clock o s))) <->
             In t (initialTasks props) \/ In t tasks) /\
  (forall clock0,
     V2.isLoading (V2.mount props clock0) = true <->
     initialTasks props = []) /\
  (forall old s0,
     V2.isLoading s0 = false ->
     V2.isLoading (V2.rerender old props s0) = true ->
     initialTasks props = []) /\
  (initialTasks props = [] ->
   V2.todos (fst (V2.fetchTodos_end props clock o s)) = tasks).
Proof.
  intros Hok.
  rewrite (fetchTodos_end_sets props clock o s tasks Hok).
  split; [reflexivity|]. split; [|split; [|split; [|split]]].
  - split; [intros Heq; symmetry; now apply app_inv_tail in Heq|].
    now intros ->.
  - intros t. apply List.in_app_iff.
  - intros clock0. unfold V2.mount.
    destruct (initialTasks props) as [|t l]; simpl;
      split; try reflexivity; discriminate.
  - intros old s0 Hidle. unfold V2.rerender.
    destruct (initialTasks props) as [|t l]; [reflexivity|].
    destruct (length (t :: l) =? length (initialTasks old))%nat;
      simpl; congruence.
  - now intros ->.
Qed.

Lemma fetchTodos_end_replaces_witness :
  V2.todos (V2.rerender seeded_props emptied_props
              (V2.mount seeded_props noon)) = three_tasks /\
  V2.todos (fst (V2.fetchTodos_end emptied_props noon
                   (Parsed (Items [Some (record 7 false)]))
                   (V2.rerender seeded_props emptied_props
                      (V2.mount seeded_props noon))))
  = initialTasks emptied_props
    ++ [ {| id := 7; titre := lit "delectus aut autem"; isCompleted := false;
            userId := Some 1; createdAt := Some 1700000000000;
            priority := Some high |} ].
Proof.
  split; [reflexivity|].
  exact (proj1 (fetchTodos_end_replaces emptied_props noon
                  (Parsed (Items [Some (record 7 false)]))
                  (V2.rerender seeded_props emptied_props
                     (V2.mount seeded_props noon))
                  _ eq_refl)).
Defined.

(** Under the markup the request started at mount does append: it is only
    started with an empty [initialTasks], and while it is pending nothing
    that the markup enables changes the list, so the list is still empty
    when the request settles. *)
Lemma step_while_loading `{Runtime} (props : TodoListProps) (s : V2.State)
  (e : V2.Event) :
  V2.isLoading s = true -> V2.todos s = [] -> enabled props s e ->
  (forall clock o, e <> V2.FetchSettled clock o) ->
  V2.isLoading (V2.step props s e) = true /\ V2.todos (V2.step props s e) = [].
Proof.
  intros Hload Hnil Hen Hpending.
  destruct e as [v|p|clock|i|i| | |f|clock o| ]; simpl in Hen |- *.
  - congruence.
  - destruct Hen; congruence.
  - congruence.
  - rewrite Hnil in Hen. destruct (V2.filtre s); destruct Hen.
  - destruct Hen as (n & _ & Hin). rewrite Hnil in Hin.
    destruct (V2.filtre s); destruct Hin.
  - rewrite Hnil in Hen. now contradiction Hen.
  - rewrite Hnil in Hen. now contradiction Hen.
  - auto.
  - now contradiction (Hpending clock o).
  - auto.
Qed.

Lemma run_while_loading `{Runtime} (props : TodoListProps)
  (events : list V2.Event) (s : V2.State) :
  V2.isLoading s = true -> V2.todos s = [] ->
  enabled_along props s events -> still_pending events ->
  V2.todos (V2.run props s events) = [].
Proof.
  revert s. induction events as [|e rest IH]; intros s Hload Hnil Hen Hpending;
    [assumption|].
  destruct Hen as [Hen Hrest].
  destruct (step_while_loading props s e Hload Hnil Hen) as [Hload' Hnil'].
  { intros clock o ->. apply (Hpending clock o). now left. }
  simpl. apply IH; try assumption.
  intros clock o Hin. apply (Hpending clock o). now right.
Qed.

Lemma first_settle_appends `{Runtime} (props : TodoListProps)
  (clock clock' : Clock) (events : list V2.Event) (o : FetchOutcome)
  (tasks : list Task) :
  initialTasks props = [] ->
  enabled_along props (V2.mount props clock) events ->
  still_pending events ->
  V2.apiTasks clock' o = Some tasks ->
  V2.todos (fst (V2.fetchTodos_end props clock' o
                   (V2.run props (V2.mount props clock) events)))
  = V2.todos (V2.run props (V2.mount props clock) events) ++ tasks.
Proof.
  intros Hinit Hen Hpending Hok.
  assert (Hnil : V2.todos (V2.run props (V2.mount props clock) events) = []).
  { apply run_while_loading; try assumption;
      unfold V2.mount, V2.initial; rewrite Hinit; reflexivity. }
  rewrite (fetchTodos_end_sets props clock' o _ tasks Hok).
  now rewrite Hnil, Hinit.
Qed.

(** On the responses that [ApiResponse] types: when the request fails,
    [fetchTodos] ends with the message ["Erreur lors du chargement"] in
    [error], [isLoading] false and the task list as it was, and its
    promise is resolved, not rejected. *)
Lemma fetchTodos_end_failure
  (props : TodoListProps) (clock : Clock) (o : FetchOutcome) (s : V2.State) :
  fetch_failed o ->
  V2.error (fst (V2.fetchTodos_end props clock o s))
  = lit "Erreur lors du chargement" /\
  V2.error (fst (V2.fetchTodos_end props clock o s)) <> [] /\
  V2.isLoading (fst (V2.fetchTodos_end props clock o s)) = false /\
  V2.todos (fst (V2.fetchTodos_end props clock o s)) = V2.todos s /\
  snd (V2.fetchTodos_end props clock o s) = Resolved.
Proof.
  intros Hfail. unfold V2.fetchTodos_end.
  rewrite (apiTasks_failed clock o Hfail). simpl.
  repeat split. discriminate.
Qed.

Lemma fetchTodos_end_failure_witness :
  V2.error (fst (V2.fetchTodos_end default_props noon NetworkError
                   (V2.mount default_props noon)))
  = lit "Erreur lors du chargement" /\
  V2.todos (fst (V2.fetchTodos_end default_props noon
                   (Parsed (Items [Some (record 1 false); None]))
                   (idle three_tasks "")))
  = three_tasks.
Proof.
  split.
  - apply (fetchTodos_end_failure default_props noon NetworkError).
    left; reflexivity.
  - apply (fetchTodos_end_failure default_props noon
             (Parsed (Items [Some (record 1 false); None]))
             (idle three_tasks "")).
    right; right; right. eexists; split; [reflexivity|]. simpl; tauto.
Defined.

(** ** The loader on every response *)

Lemma Raw_api_task_null (clock : Clock) (index : nat) (item : Raw.Json) :
  Raw.api_task clock index item = None <-> item = Raw.JNull.
Proof.
  unfold Raw.api_task. destruct item; simpl; split;
    try discriminate; reflexivity.
Qed.

Lemma Raw_map_items_null (clock : Clock) (items : list Raw.Json) :
  In Raw.JNull items -> forall index, Raw.map_items clock index items = None.
Proof.
  induction items as [|item rest IH]; intros Hin index; [destruct Hin|].
  destruct Hin as [-> | Hin]; [reflexivity|].
  simpl. destruct (Raw.api_task clock index item); [|reflexivity].
  now rewrite IH.
Qed.

Lemma Raw_map_items_some (clock : Clock) (items : list Raw.Json) :
  ~ In Raw.JNull items ->
  forall index, exists tasks,
    Raw.map_items clock index items = Some tasks /\
    length tasks = length items.
Proof.
  induction items as [|item rest IH]; intros Hnot index; simpl.
  - now exists [].
  - destruct (Raw.api_task clock index item) as [t|] eqn:Ht.
    + destruct (IH (fun Hin => Hnot (or_intror Hin)) (S index))
        as (ts & -> & Hlen).
      exists (t :: ts). split; [reflexivity | simpl; now rewrite Hlen].
    + apply Raw_api_task_null in Ht. contradiction Hnot. now left.
Qed.

Lemma Raw_apiTasks_fails (clock : Clock) (r : Raw.Response) :
  Raw.fails r -> Raw.apiTasks clock r = None.
Proof.
  destruct r as [|ok [[]|]]; simpl; try reflexivity.
  intros Hin. now apply Raw_map_items_null.
Qed.

Lemma Raw_apiTasks_accepts (clock : Clock) (r : Raw.Response) :
  ~ Raw.fails r ->
  exists ok items tasks,
    r = Raw.Responded ok (Some (Raw.JArray items)) /\
    Raw.apiTasks clock r = Some tasks /\ length tasks = length items.
Proof.
  destruct r as [|ok [[]|]]; simpl; intros Hnot; try now contradiction Hnot.
  destruct (Raw_map_items_some clock items Hnot 0%nat) as (tasks & Hm & Hl).
  now exists ok, items, tasks.
Qed.

(** On the responses that [ApiResponse] types, the loader is the typed
    one. *)
Lemma Raw_api_task_typed (clock : Clock) (index : nat)
  (item : option Api.ApiResponse) :
  Raw.api_task clock index (Raw.of_item item)
  = option_map Raw.of_task (V2.api_task clock index item).
Proof. destruct item as [r|]; reflexivity. Qed.

Lemma Raw_map_items_typed (clock : Clock)
  (items : list (option Api.ApiResponse)) :
  forall index,
    Raw.map_items clock index (List.map Raw.of_item items)
    = option_map (List.map Raw.of_task) (V2.map_items clock index items).
Proof.
  induction items as [|item rest IH]; intros index; [reflexivity|].
  cbn [List.map Raw.map_items V2.map_items].
  rewrite Raw_api_task_typed, IH.
  destruct (V2.api_task clock index item); [|reflexivity].
  now destruct (V2.map_items clock (S index) rest).
Qed.

Lemma Raw_fetchTodos_end_typed (props : TodoListProps) (clock : Clock)
  (o : FetchOutcome) (s : V2.State) :
  Raw.fetchTodos_end props clock (Raw.of_outcome o) (Raw.of_state s)
  = (Raw.of_state (fst (V2.fetchTodos_end props clock o s)),
     snd (V2.fetchTodos_end props clock o s)).
Proof.
  unfold Raw.fetchTodos_end, V2.fetchTodos_end.
  destruct o as [| |[|items]]; try reflexivity.
  cbn [Raw.of_outcome Raw.apiTasks V2.apiTasks].
  rewrite Raw_map_items_typed.
  destruct (V2.map_items clock 0 items) as [tasks|]; [|reflexivity].
  cbn. unfold Raw.of_state, Raw.setIsLoading, Raw.setTodos. cbn.
  now rewrite List.map_app.
Qed.

(** C3, as stated, fails: a malformed response that does not make the
    [try] block throw is taken for a success.  With the body [[{}]] the
    request started at mount ends with no message in [error] and a task
    whose fields are [undefined] in the list; a response with a status
    that is not 2xx and an array as its body replaces the three tasks of
    the list and leaves no message either. *)
Lemma malformed_response_accepted :
  (Raw.error
     (fst (Raw.fetchTodos_end default_props noon
             (Raw.Responded true (Some (Raw.JArray [Raw.JObject []])))
             (Raw.of_state (V2.mount default_props noon)))) = [] /\
   Raw.todos (Raw.of_state (V2.mount default_props noon)) = [] /\
   Raw.todos
     (fst (Raw.fetchTodos_end default_props noon
             (Raw.Responded true (Some (Raw.JArray [Raw.JObject []])))
             (Raw.of_state (V2.mount default_props noon))))
   = [ {| Raw.Task.id := None; Raw.Task.titre := None;
          Raw.Task.isCompleted := None; Raw.Task.userId := None;
          Raw.Task.createdAt := Some 1700000000000;
          Raw.Task.priority := Some high |} ]) /\
  (Raw.error
     (fst (Raw.fetchTodos_end emptied_props noon
             (Raw.Responded false (Some (Raw.JArray [])))
             (Raw.of_state (V2.rerender seeded_props emptied_props
                              (V2.mount seeded_props noon))))) = [] /\
   length (Raw.todos
             (Raw.of_state (V2.rerender seeded_props emptied_props
                              (V2.mount seeded_props noon)))) = 3%nat /\
   Raw.todos
     (fst (Raw.fetchTodos_end emptied_props noon
             (Raw.Responded false (Some (Raw.JArray [])))
             (Raw.of_state (V2.rerender seeded_props emptied_props
                              (V2.mount seeded_props noon))))) = []).
Proof. repeat split. Qed.

(** C3, amended.  When the request fails in a way the [try] block meets
    (no response, a body that is not JSON, a body that is not an array, an
    array with a [null] element), [fetchTodos] ends with the message
    ["Erreur lors du chargement"] in [error], [isLoading] false and the
    task list as it was, and its promise is resolved, not rejected.  Every
    other response, whatever its status and whatever its array holds, is
    taken for a success: the list is replaced by [initialTasks] followed by
    one task per element, and [error] is left as it was. *)
Theorem fetchTodos_end_catches
  (props : TodoListProps) (clock : Clock) (r : Raw.Response) (s : Raw.State) :
  (Raw.fails r ->
   Raw.error (fst (Raw.fetchTodos_end props clock r s))
   = lit "Erreur lors du chargement" /\
   Raw.error (fst (Raw.fetchTodos_end props clock r s)) <> [] /\
   Raw.isLoading (fst (Raw.fetchTodos_end props clock r s)) = false /\
   Raw.todos (fst (Raw.fetchTodos_end props clock r s)) = Raw.todos s /\
   snd (Raw.fetchTodos_end props clock r s) = Resolved) /\
  (~ Raw.fails r ->
   exists ok items tasks,
     r = Raw.Responded ok (Some (Raw.JArray items)) /\
     length tasks = length items /\
     Raw.todos (fst (Raw.fetchTodos_end props clock r s))
     = List.map Raw.of_task (initialTasks props) ++ tasks /\
     Raw.error (fst (Raw.fetchTodos_end props clock r s)) = Raw.error s /\
     Raw.isLoading (fst (Raw.fetchTodos_end props clock r s)) = false /\
     snd (Raw.fetchTodos_end props clock r s) = Resolved).
Proof.
  unfold Raw.fetchTodos_end. split.
  - intros Hfail. rewrite (Raw_apiTasks_fails clock r Hfail). simpl.
    repeat split. discriminate.
  - intros Hnot.
    destruct (Raw_apiTasks_accepts clock r Hnot)
      as (ok & items & tasks & Hr & -> & Hlen).
    exists ok, items, tasks. simpl. repeat split; assumption.
Qed.

Lemma fetchTodos_end_catches_witness :
  Raw.error
    (fst (Raw.fetchTodos_end default_props noon Raw.NoResponse
            (Raw.of_state (V2.mount default_props noon))))
  = lit "Erreur lors du chargement" /\
  Raw.todos
    (fst (Raw.fetchTodos_end default_props noon
            (Raw.Responded true
               (Some (Raw.JArray [Raw.of_record (record 1 false);
                                  Raw.JNull])))
            (Raw.of_state (idle three_tasks ""))))
  = Raw.todos (Raw.of_state (idle three_tasks "")).
Proof.
  split.
  - apply (proj1 (fetchTodos_end_catches default_props noon Raw.NoResponse
                    (Raw.of_state (V2.mount default_props noon)))).
    exact I.
  - apply (proj1 (fetchTodos_end_catches default_props noon
                    (Raw.Responded true
                       (Some (Raw.JArray [Raw.of_record (record 1 false);
                                          Raw.JNull])))
                    (Raw.of_state (idle three_tasks "")))).
    simpl. tauto.
Defined.

(** ** The priorities of the fetched tasks *)

(** C8.  The component is mounted with the default props, so with
    [enablePriority] false, and the request settles with four records: the
    mapped tasks get the priorities their positions give, high, low,
    medium, high. *)
Theorem loader_priority_ignores_flag :
  enablePriority default_props = false /\
  List.map priority
    (V2.todos (fst (V2.fetchTodos_end default_props noon
                      (Parsed (Items [Some (record 1 false);
                                      Some (record 2 false);
                                      Some (record 3 true);
                                      Some (record 4 false)]))
                      (V2.mount default_props noon))))
  = [Some high; Some low; Some medium; Some high].
Proof. split; reflexivity. Qed.

(** The mapping does not read [enablePriority]: whatever the props are,
    the task mapped from the record at position [k] has priority high when
    [k] is a multiple of 3, else medium when [k] is even, else low. *)
Lemma loader_priority_by_position
  (props : TodoListProps) (clock : Clock) (o : FetchOutcome)
  (s : V2.State) (tasks : list Task) :
  V2.apiTasks clock o = Some tasks ->
  V2.todos (fst (V2.fetchTodos_end props clock o s))
  = initialTasks props ++ tasks /\
  forall k t, tasks !! k = Some t ->
              priority t = Some (V2.index_priority k).
Proof.
  intros Hok. split.
  - now apply fetchTodos_end_sets.
  - destruct o as [| |[|items]]; try discriminate.
    simpl in Hok. apply map_items_lookup in Hok. apply Hok.
Qed.

Lemma loader_priority_by_position_witness :
  priority {| id := 2; titre := lit "delectus aut autem"; isCompleted := true;
              userId := Some 1; createdAt := Some 1700000000000;
              priority := Some low |}
  = Some (V2.index_priority 1).
Proof.
  apply (proj2 (loader_priority_by_position
                  {| initialTasks := []; maxTodos := 100;
                     enablePriority := true |}
                  noon
                  (Parsed (Items [Some (record 1 false); Some (record 2 true)]))
                  (V2.mount default_props noon) _ eq_refl) 1%nat).
  reflexivity.
Defined.

(** [ajouterTodo] does read [enablePriority]: without it the task it adds
    is of medium priority whatever the selected priority is, with it the
    task has the selected priority. *)
Lemma ajouterTodo_priority_by_flag (props : TodoListProps) (clock : Clock)
  (s : V2.State) (t : Task) :
  V2.todos (fst (V2.ajouterTodo props clock s)) = V2.todos s ++ [t] ->
  priority t
  = Some (if enablePriority props then V2.selectedPriority s else medium).
Proof.
  unfold V2.ajouterTodo. destruct (non_empty _).
  - destruct (_ >=? _); simpl.
    + intros H. apply (f_equal (@length Task)) in H.
      rewrite length_app in H. simpl in H. lia.
    + intros H. apply app_inj_tail in H as [_ <-]. reflexivity.
  - simpl. intros H. apply (f_equal (@length Task)) in H.
    rewrite length_app in H. simpl in H. lia.
Qed.

(** ** Identifiers *)

Lemma ids_map_same (f : Task -> Task) (l : list Task) :
  (forall t, id (f t) = id t) -> ids (List.map f l) = ids l.
Proof.
  intros Hf. unfold ids. rewrite List.map_map. now apply List.map_ext.
Qed.

Lemma NoDup_ids_filter (f : Task -> bool) (l : list Task) :
  NoDup (ids l) -> NoDup (ids (List.filter f l)).
Proof.
  unfold ids. induction l as [|a l IH]; simpl; intros Hnd; [constructor|].
  apply NoDup_cons in Hnd as [Hnotin Hnd].
  destruct (f a); simpl; [|auto].
  apply NoDup_cons. split; [|auto].
  rewrite list_elem_of_In in *. intros Hin. apply Hnotin.
  apply List.in_map_iff in Hin as (t & Ht & Hin).
  apply List.in_map_iff. exists t. split; [assumption|].
  now apply List.filter_In in Hin.
Qed.

Lemma step_keeps_ids_distinct `{Runtime} (props : TodoListProps)
  (s : V2.State) (e : V2.Event) :
  NoDup (ids (V2.todos s)) -> brings_fresh_ids props s e ->
  NoDup (ids (V2.todos (V2.step props s e))).
Proof.
  intros Hnd Hfresh. destruct e as [v|p|clock|i|i| | |f|clock o| ]; simpl;
    try assumption.
  - unfold V2.ajouterTodo. destruct (non_empty _); [|assumption].
    destruct (_ >=? _); [assumption|]. simpl.
    unfold ids. rewrite List.map_app. simpl.
    apply NoDup_app. split; [assumption|]. split.
    + intros x Hx Hx'. apply list_elem_of_In in Hx.
      apply list_elem_of_In in Hx'. destruct Hx' as [<-|[]].
      now apply Hfresh.
    + apply NoDup_singleton.
  - rewrite ids_map_same; [assumption|]. intros t. now destruct (id t =? i).
  - now apply NoDup_ids_filter.
  - now apply NoDup_ids_filter.
  - rewrite ids_map_same; [assumption | reflexivity].
  - unfold V2.fetchTodos_end. simpl in Hfresh.
    destruct (V2.apiTasks clock o) as [tasks|]; simpl; [|assumption].
    now apply Hfresh.
Qed.

(** C9, as stated, fails: two adds that read the same clock value give two
    tasks the same [id], and so do initial tasks that share one. *)
Lemma duplicate_ids_reachable :
  ids (V2.todos
         (@V2.run decimal_runtime default_props (V2.mount default_props noon)
            [V2.FetchSettled noon (Parsed (Items []));
             V2.Change (lit "a"); V2.Ajouter noon;
             V2.Change (lit "b"); V2.Ajouter noon]))
  = [1700000000000; 1700000000000] /\
  ~ NoDup (ids (V2.todos
         (@V2.run decimal_runtime default_props (V2.mount default_props noon)
            [V2.FetchSettled noon (Parsed (Items []));
             V2.Change (lit "a"); V2.Ajouter noon;
             V2.Change (lit "b"); V2.Ajouter noon]))) /\
  ~ NoDup (ids (V2.todos
         (V2.mount {| initialTasks := [task 1 false low; task 1 true high];
                      maxTodos := 100; enablePriority := false |} noon))).
Proof.
  split; [reflexivity|]. split.
  - intros Hnd. vm_compute in Hnd. inversion Hnd as [|x l Hin _]; subst.
    apply Hin. now left.
  - intros Hnd. vm_compute in Hnd. inversion Hnd as [|x l Hin _]; subst.
    apply Hin. now left.
Qed.

(** C9, amended.  The identifiers of the list stay pairwise distinct along
    every run that starts with pairwise distinct ones and in which each add
    reads a clock value that no task has as [id] and each settled request
    brings records whose identifiers differ from each other and from those
    of [initialTasks]; toggle, remove, clear and complete-all keep them
    distinct without condition. *)
Theorem ids_distinct_when_fresh `{Runtime} (props : TodoListProps)
  (events : list V2.Event) (s : V2.State) :
  NoDup (ids (V2.todos s)) ->
  fresh_along props s events ->
  NoDup (ids (V2.todos (V2.run props s events))).
Proof.
  revert s. induction events as [|e rest IH]; intros s Hnd Hfresh;
    [assumption|].
  destruct Hfresh as [Hfresh Hrest]. simpl. apply IH; [|assumption].
  now apply step_keeps_ids_distinct.
Qed.

Lemma ids_distinct_when_fresh_witness :
  NoDup (ids (V2.todos
    (@V2.run decimal_runtime default_props (V2.mount default_props noon)
       [V2.FetchSettled noon (Parsed (Items [Some (record 1 false);
                                             Some (record 2 true)]));
        V2.Change (lit "Acheter du lait"); V2.Ajouter noon;
        V2.Toggle 1; V2.Supprimer (IdString (lit " 2 "));
        V2.MarquerTout]))).
Proof.
  apply (@ids_distinct_when_fresh decimal_runtime).
  - constructor.
  - simpl. repeat split.
    + intros tasks Htasks. injection Htasks as <-. vm_compute.
      repeat constructor; rewrite list_elem_of_In; simpl; intuition lia.
    + vm_compute. intuition lia.
Defined.

(** ** The view *)

Lemma sort_insert_high (a : Task) (l : list Task) :
  is_high a = true -> sort_insert V2.by_priority a l = a :: l.
Proof.
  intros Ha. destruct l as [|b l]; [reflexivity|].
  simpl. unfold V2.by_priority. rewrite Ha. simpl.
  now destruct (is_high b).
Qed.

Lemma sort_insert_after_high (a : Task) (hs os : list Task) :
  is_high a = false ->
  Forall (fun t => is_high t = true) hs ->
  Forall (fun t => is_high t = false) os ->
  sort_insert V2.by_priority a (hs ++ os) = hs ++ a :: os.
Proof.
  intros Ha Hhs Hos. induction Hhs as [|h hs Hh _ IH]; simpl.
  - destruct Hos as [|o os Ho _]; [reflexivity|].
    simpl. unfold V2.by_priority. now rewrite Ha, Ho.
  - unfold V2.by_priority at 1. rewrite Ha, Hh. simpl. now rewrite IH.
Qed.

(** Sorting by [by_priority] is the stable partition on [is_high]. *)
Lemma sort_by_priority_partition (l : list Task) :
  sort V2.by_priority l
  = List.filter is_high l ++ List.filter (fun t => negb (is_high t)) l.
Proof.
  induction l as [|a l IH]; [reflexivity|].
  simpl. rewrite IH. destruct (is_high a) eqn:Ha; simpl.
  - now apply sort_insert_high.
  - apply sort_insert_after_high;
      [assumption | apply Forall_filter_true | apply Forall_filter_false].
Qed.

(** Whatever the algorithm: a list in which the high-priority tasks come
    first (sorted for [by_priority]) and whose high-priority tasks and
    other tasks are those of [l] in the order of [l] (stable) is the list
    [sort] computes. *)
Lemma sort_by_priority_unique (l l' hs os : list Task) :
  l' = hs ++ os ->
  Forall (fun t => is_high t = true) hs ->
  Forall (fun t => is_high t = false) os ->
  List.filter is_high l' = List.filter is_high l ->
  List.filter (fun t => negb (is_high t)) l'
  = List.filter (fun t => negb (is_high t)) l ->
  l' = sort V2.by_priority l.
Proof.
  intros -> Hhs Hos Hhigh Hother.
  rewrite sort_by_priority_partition, <- Hhigh, <- Hother.
  rewrite !List.filter_app.
  rewrite (filter_all _ _ Hhs), (filter_none _ _ Hhs), app_nil_l.
  assert (Hos' : Forall (fun t => negb (is_high t) = true) os).
  { eapply Forall_impl; [exact Hos|]. simpl. now intros t ->. }
  rewrite (filter_all _ _ Hos').
  assert (Hnone : List.filter is_high os = []).
  { clear -Hos. induction Hos as [|o os Ho _ IH]; simpl; [reflexivity|].
    now rewrite Ho. }
  now rewrite Hnone, app_nil_r.
Qed.

(** C5.  In the high-priority mode the view is exactly the tasks that are
    high priority and not completed, in their order in the list; in every
    mode the view is the shown tasks of high priority, in their order,
    followed by the other shown tasks, in their order. *)
Theorem filteredTodos_stable_partition (todos : list Task) :
  V2.filteredTodos todos high_priority
  = List.filter (fun t => is_high t && negb (isCompleted t)) todos /\
  forall f : FilterType,
    V2.filteredTodos todos f
    = List.filter is_high (List.filter (V2.shown f) todos)
      ++ List.filter (fun t => negb (is_high t))
           (List.filter (V2.shown f) todos).
Proof.
  split.
  - unfold V2.filteredTodos. rewrite sort_by_priority_partition.
    change (V2.shown high_priority)
      with (fun t => is_high t && negb (isCompleted t)).
    assert (H : Forall (fun t => is_high t = true)
                  (List.filter (fun t => is_high t && negb (isCompleted t))
                     todos)).
    { induction todos as [|a l IH]; simpl; [constructor|].
      destruct (is_high a) eqn:Ha; simpl; [|assumption].
      destruct (isCompleted a); simpl; [assumption|]. now constructor. }
    rewrite (filter_all _ _ H), (filter_none _ _ H). apply app_nil_r.
  - intros f. apply sort_by_priority_partition.
Qed.

Example filteredTodos_orders :
  ids (V2.filteredTodos
         [task 1 false low; task 2 true high; task 3 false medium;
          task 4 false high; task 5 false low] tous) = [2; 4; 1; 3; 5] /\
  ids (V2.filteredTodos
         [task 1 false low; task 2 true high; task 3 false medium;
          task 4 false high; task 5 false low] high_priority) = [4].
Proof. split; reflexivity. Qed.

Lemma alloc_fresh (l : list Task) (h : gmap positive (list Task)) :
  h !! (fst (Heap.alloc l h)) = None.
Proof. simpl. apply not_elem_of_dom. apply is_fresh. Qed.

Lemma Array_filter_spec (f : Task -> bool) (r : positive)
  (h : gmap positive (list Task)) (l : list Task) :
  h !! r = Some l ->
  exists r', Heap.Array_filter f r h = Some (r', <[r' := List.filter f l]> h)
             /\ h !! r' = None.
Proof.
  intros Hr. unfold Heap.Array_filter. rewrite Hr.
  eexists. split; [reflexivity|]. apply (alloc_fresh (List.filter f l)).
Qed.

(** [.sort] does reorder the array it is called on: called on [todos]
    itself it would reorder the store. *)
Example Array_sort_in_place :
  Heap.Array_sort V2.by_priority 1%positive {[ 1%positive := three_tasks ]}
  = Some (1%positive,
          {[ 1%positive :=
               [task 2 true high; task 3 false high; task 1 false low] ]}).
Proof.
  unfold Heap.Array_sort. rewrite lookup_singleton_eq.
  now rewrite insert_singleton_eq.
Qed.

(** C10.  Computing the view in any mode returns a new array that holds
    the view and leaves the array of [todos], and every other array there
    was, with the same tasks in the same order; in both versions. *)
Theorem filteredTodos_leaves_todos (todos : positive) (f : FilterType)
  (h : gmap positive (list Task)) (l : list Task) :
  h !! todos = Some l ->
  (exists r h',
     Heap.filteredTodos todos f h = Some (r, h') /\
     h' !! r = Some (V2.filteredTodos l f) /\
     h' !! todos = Some l /\
     forall r0, is_Some (h !! r0) -> h' !! r0 = h !! r0) /\
  (exists r h',
     Heap.filteredTodos1 todos f h = Some (r, h') /\
     h' !! r = Some (V1.filteredTodos l f) /\
     h' !! todos = Some l /\
     forall r0, is_Some (h !! r0) -> h' !! r0 = h !! r0).
Proof.
  intros Hl. split.
  - unfold Heap.filteredTodos.
    destruct (Array_filter_spec (V2.shown f) todos h l Hl) as (r & -> & Hr).
    unfold Heap.Array_sort. rewrite lookup_insert_eq.
    exists r. eexists. split; [reflexivity|].
    assert (Hkeep : forall r0, is_Some (h !! r0) -> r <> r0).
    { intros r0 [x Hx] ->. congruence. }
    rewrite insert_insert_eq, lookup_insert_eq.
    split; [reflexivity|]. split.
    + rewrite lookup_insert_ne; [assumption|]. apply Hkeep. now exists l.
    + intros r0 Hr0. rewrite lookup_insert_ne; [reflexivity|]. now apply Hkeep.
  - unfold Heap.filteredTodos1.
    destruct (Array_filter_spec (V1.shown f) todos h l Hl) as (r & -> & Hr).
    exists r. eexists. split; [reflexivity|].
    assert (Hkeep : forall r0, is_Some (h !! r0) -> r <> r0).
    { intros r0 [x Hx] ->. congruence. }
    rewrite lookup_insert_eq.
    split; [reflexivity|]. split.
    + rewrite lookup_insert_ne; [assumption|]. apply Hkeep. now exists l.
    + intros r0 Hr0. rewrite lookup_insert_ne; [reflexivity|]. now apply Hkeep.
Qed.

Lemma filteredTodos_leaves_todos_witness :
  exists r h',
    Heap.filteredTodos 1%positive tous {[ 1%positive := three_tasks ]}
    = Some (r, h') /\
    h' !! r = Some (V2.filteredTodos three_tasks tous) /\
    h' !! 1%positive = Some three_tasks /\
    forall r0,
      is_Some (({[ 1%positive := three_tasks ]}
                : gmap positive (list Task)) !! r0) ->
      h' !! r0
      = ({[ 1%positive := three_tasks ]} : gmap positive (list Task)) !! r0.
Proof.
  apply (filteredTodos_leaves_todos 1%positive tous
           {[ 1%positive := three_tasks ]}).
  apply lookup_singleton_eq.
Defined.

(** ** Progress

    What binary64 division and multiplication return, from the
    definitions of [SpecFloat], for the operands the percentage is
    computed from.  The steps: the digits of a mantissa; what the right
    shift [shr] and the rounding [round_nearest_even] do to the real a
    mantissa and its location stand for; from these, [binary_round_aux]
    returns a Number within half a unit in the last place, hence within
    [2^-53] of the exact value in relative terms; integers below [2^53]
    convert exactly; division and multiplication return the exact result
    times [1 + d] with [|d| <= 2^-53]; [Math.round] is the floor of its
    argument plus a half. *)
Module Binary64Facts.

Import Binary64.

Lemma digits2_pos_bounds (p : positive) :
  2 ^ (Z.pos (digits2_pos p) - 1) <= Z.pos p < 2 ^ Z.pos (digits2_pos p).
Proof.
  induction p as [p IH | p IH |]; simpl digits2_pos.
  - rewrite Pos2Z.inj_succ, (Pos2Z.inj_xI p).
    replace (Z.succ (Z.pos (digits2_pos p)) - 1)
      with (Z.succ (Z.pos (digits2_pos p) - 1)) by lia.
    rewrite !Z.pow_succ_r by lia. lia.
  - rewrite Pos2Z.inj_succ, (Pos2Z.inj_xO p).
    replace (Z.succ (Z.pos (digits2_pos p)) - 1)
      with (Z.succ (Z.pos (digits2_pos p) - 1)) by lia.
    rewrite !Z.pow_succ_r by lia. lia.
  - simpl. lia.
Qed.

Lemma Zdigits2_unique (p : positive) (d : Z) :
  2 ^ (d - 1) <= Z.pos p < 2 ^ d -> Z.pos (digits2_pos p) = d.
Proof.
  intros [Hlo Hhi]. pose proof (digits2_pos_bounds p) as [Hlo' Hhi'].
  assert (Hd : 0 < d).
  { destruct (Z_lt_le_dec 0 d) as [|Hle]; [assumption|].
    destruct (Z.eq_dec d 0) as [->|]; [simpl in Hhi; lia|].
    rewrite Z.pow_neg_r in Hhi by lia. lia. }
  destruct (Z_lt_le_dec (Z.pos (digits2_pos p)) d) as [Hlt|Hge].
  - assert (2 ^ Z.pos (digits2_pos p) <= 2 ^ (d - 1))
      by (apply Z.pow_le_mono_r; lia). lia.
  - destruct (Z_lt_le_dec d (Z.pos (digits2_pos p))) as [Hlt|Hle]; [|lia].
    assert (2 ^ d <= 2 ^ (Z.pos (digits2_pos p) - 1))
      by (apply Z.pow_le_mono_r; lia). lia.
Qed.

Local Open Scope R_scope.

Lemma shr_1_inloc (x : R) (mrs : shr_record) :
  (0 <= shr_m mrs)%Z -> inloc x mrs ->
  inloc (x * /2) (shr_1 mrs) /\ (0 <= shr_m (shr_1 mrs))%Z.
Proof.
  destruct mrs as [m r s]. unfold inloc. simpl. intros Hm Hx.
  destruct m as [|[p|p|]|p]; try lia; simpl;
    rewrite ?(Pos2Z.inj_xI p), ?(Pos2Z.inj_xO p), ?plus_IZR, ?mult_IZR in Hx;
    (split; [|lia]);
    destruct r, s; simpl in *; lra.
Qed.

Lemma iter_shr_1_inloc (p : positive) :
  forall (x : R) (mrs : shr_record),
    (0 <= shr_m mrs)%Z -> inloc x mrs ->
    inloc (x * (/2) ^ Pos.to_nat p) (SpecFloat.iter_pos shr_1 p mrs) /\
    (0 <= shr_m (SpecFloat.iter_pos shr_1 p mrs))%Z.
Proof.
  induction p as [p IH | p IH |]; intros x mrs Hm Hx; simpl SpecFloat.iter_pos.
  - destruct (shr_1_inloc x mrs Hm Hx) as [H1 Hm1].
    destruct (IH _ _ Hm1 H1) as [H2 Hm2].
    destruct (IH _ _ Hm2 H2) as [H3 Hm3].
    split; [|assumption].
    replace (x * (/2) ^ Pos.to_nat p~1)
      with (x * /2 * (/2) ^ Pos.to_nat p * (/2) ^ Pos.to_nat p); [assumption|].
    rewrite Pos2Nat.inj_xI. simpl. rewrite Nat.add_0_r, pow_add. ring.
  - destruct (IH _ _ Hm Hx) as [H2 Hm2].
    destruct (IH _ _ Hm2 H2) as [H3 Hm3].
    split; [|assumption].
    replace (x * (/2) ^ Pos.to_nat p~0)
      with (x * (/2) ^ Pos.to_nat p * (/2) ^ Pos.to_nat p); [assumption|].
    rewrite Pos2Nat.inj_xO. simpl. rewrite Nat.add_0_r, pow_add. ring.
  - destruct (shr_1_inloc x mrs Hm Hx) as [H1 Hm1].
    split; [|assumption]. simpl. now rewrite Rmult_1_r.
Qed.

Lemma bpow_add (a b : Z) : bpow (a + b) = bpow a * bpow b.
Proof. apply powerRZ_add. lra. Qed.

Lemma bpow_pos (e : Z) : 0 < bpow e.
Proof. apply powerRZ_lt. lra. Qed.

(** [|a * 2^e|] is [|a| * 2^e]. *)
Ltac abs_bpow :=
  rewrite Rabs_mult, (Rabs_pos_eq (bpow _)) by (left; apply bpow_pos).

Ltac abs_bpow_in H :=
  rewrite Rabs_mult, (Rabs_pos_eq (bpow _)) in H by (left; apply bpow_pos).

Lemma bpow_nat (n : nat) : bpow (Z.of_nat n) = 2 ^ n.
Proof. unfold bpow. now rewrite <- pow_powerRZ. Qed.

Lemma bpow_IZR (z : Z) : (0 <= z)%Z -> bpow z = IZR (2 ^ z).
Proof.
  intros Hz. rewrite <- (Z2Nat.id z Hz) at 1 2.
  rewrite bpow_nat. now rewrite <- pow_IZR.
Qed.

Lemma half_pow (n : nat) : (/2) ^ n * 2 ^ n = 1.
Proof.
  rewrite <- Rpow_mult_distr. replace (/2 * 2) with 1 by lra. apply pow1.
Qed.

Lemma inloc_bounds (x : R) (mrs : shr_record) :
  inloc x mrs -> IZR (shr_m mrs) <= x < IZR (shr_m mrs) + 1.
Proof. unfold inloc. destruct (shr_r mrs), (shr_s mrs); lra. Qed.

Lemma loc_of_record_of (m : Z) (l : location) :
  loc_of_shr_record (shr_record_of_loc m l) = l /\
  shr_m (shr_record_of_loc m l) = m.
Proof. destruct l as [|[]]; split; reflexivity. Qed.

Lemma round_nearest_even_near (x : R) (mrs : shr_record) :
  inloc x mrs ->
  (round_nearest_even (shr_m mrs) (loc_of_shr_record mrs) = shr_m mrs \/
   round_nearest_even (shr_m mrs) (loc_of_shr_record mrs) = (shr_m mrs + 1)%Z)
  /\ Rabs (IZR (round_nearest_even (shr_m mrs) (loc_of_shr_record mrs)) - x)
     <= /2.
Proof.
  destruct mrs as [m r s]. unfold inloc. simpl. intros Hx.
  destruct r, s; simpl.
  - split; [now right|]. rewrite plus_IZR. apply Rabs_le. lra.
  - destruct (Z.even m); (split; [tauto|]); rewrite ?plus_IZR;
      apply Rabs_le; lra.
  - split; [now left|]. apply Rabs_le. lra.
  - split; [now left|]. apply Rabs_le. lra.
Qed.

(** The shift of [shr], whatever the sign of its amount. *)
Lemma shr_inloc (x : R) (mrs : shr_record) (e k : Z) :
  (0 <= k)%Z -> (0 <= shr_m mrs)%Z -> inloc x mrs ->
  snd (shr mrs e k) = (e + k)%Z /\
  inloc (x * (/2) ^ Z.to_nat k) (fst (shr mrs e k)).
Proof.
  intros Hk Hm Hx. destruct k as [|p|p]; try lia; simpl.
  - split; [lia|]. now rewrite Rmult_1_r.
  - split; [reflexivity|]. now apply iter_shr_1_inloc.
Qed.

Lemma binary_round_aux_spec (mx ex : Z) (lx : location) (x : R) :
  (0 < mx)%Z -> (0 <= Zdigits2 mx - 53)%Z ->
  (-1074 <= ex + (Zdigits2 mx - 53))%Z ->
  (ex + (Zdigits2 mx - 53) + 1 <= 971)%Z ->
  inloc x (shr_record_of_loc mx lx) ->
  exists (m : positive) (e : Z),
    binary_round_aux prec emax false mx ex lx = S754_finite false m e /\
    Z.pos (digits2_pos m) = 53%Z /\
    (ex + (Zdigits2 mx - 53) <= e <= ex + (Zdigits2 mx - 53) + 1)%Z /\
    Rabs (IZR (Z.pos m) * bpow e - x * bpow ex)
      <= /2 * bpow (ex + (Zdigits2 mx - 53)).
Proof.
  set (k := (Zdigits2 mx - 53)%Z). intros Hmx Hk Hlo Hhi Hx.
  unfold binary_round_aux, shr_fexp.
  replace (fexp prec emax (Zdigits2 mx + ex) - ex)%Z with k
    by (unfold fexp, emin, prec, emax, k; lia).
  assert (Hm0 : (0 <= shr_m (shr_record_of_loc mx lx))%Z)
    by (rewrite (proj2 (loc_of_record_of mx lx)); lia).
  destruct (shr_inloc x _ ex k Hk Hm0 Hx) as [He' Hx1].
  destruct (shr (shr_record_of_loc mx lx) ex k) as [mrs' e'] eqn:Hshr.
  simpl in He', Hx1. subst e'.
  set (x1 := x * (/2) ^ Z.to_nat k) in *.
  (* the bounds of the shifted value *)
  assert (Hxb : IZR mx <= x < IZR mx + 1).
  { apply inloc_bounds in Hx.
    now rewrite (proj2 (loc_of_record_of mx lx)) in Hx. }
  destruct mx as [|px|px]; try lia.
  pose proof (digits2_pos_bounds px) as [Hdlo Hdhi].
  change (Z.pos (digits2_pos px)) with (Zdigits2 (Z.pos px)) in Hdlo, Hdhi.
  replace (Zdigits2 (Z.pos px) - 1)%Z with (52 + k)%Z in Hdlo
    by (unfold k; lia).
  replace (Zdigits2 (Z.pos px)) with (53 + k)%Z in Hdhi by (unfold k; lia).
  rewrite Z.pow_add_r in Hdlo, Hdhi by lia.
  assert (Hpk : IZR (2 ^ k) = 2 ^ Z.to_nat k).
  { rewrite <- bpow_IZR by lia. rewrite <- bpow_nat. now rewrite Z2Nat.id. }
  assert (Hx1b : IZR (2 ^ 52) <= x1 < IZR (2 ^ 53)).
  { apply IZR_le in Hdlo.
    assert (Hdhi' : (Z.pos px + 1 <= 2 ^ 53 * 2 ^ k)%Z) by lia.
    apply IZR_le in Hdhi'.
    rewrite mult_IZR, Hpk in Hdlo. rewrite plus_IZR in Hdhi'.
    rewrite mult_IZR, Hpk in Hdhi'.
    pose proof (half_pow (Z.to_nat k)) as Hh.
    assert (Hhp : 0 < (/2) ^ Z.to_nat k) by (apply pow_lt; lra).
    unfold x1. split.
    - replace (IZR (2 ^ 52))
        with (IZR (2 ^ 52) * 2 ^ Z.to_nat k * (/2) ^ Z.to_nat k)
        by (rewrite Rmult_assoc, (Rmult_comm (2 ^ _)), Hh; ring).
      apply Rmult_le_compat_r; lra.
    - replace (IZR (2 ^ 53))
        with (IZR (2 ^ 53) * 2 ^ Z.to_nat k * (/2) ^ Z.to_nat k)
        by (rewrite Rmult_assoc, (Rmult_comm (2 ^ _)), Hh; ring).
      apply Rmult_lt_compat_r; lra. }
  pose proof (inloc_bounds _ _ Hx1) as Hm1.
  assert (Hm1z : (2 ^ 52 <= shr_m mrs' < 2 ^ 53)%Z).
  { split.
    - apply Z.lt_succ_r. apply lt_IZR. rewrite succ_IZR. lra.
    - apply lt_IZR. lra. }
  destruct (round_nearest_even_near x1 mrs' Hx1) as [Hm2 Herr].
  set (m2 := round_nearest_even (shr_m mrs') (loc_of_shr_record mrs')) in *.
  assert (Hm2z : (2 ^ 52 <= m2 <= 2 ^ 53)%Z) by lia.
  (* the value the error is measured against *)
  assert (Hval : x * bpow ex = x1 * bpow (ex + k)).
  { unfold x1. rewrite bpow_add, (bpow_IZR k), Hpk by lia.
    pose proof (half_pow (Z.to_nat k)) as Hh.
    rewrite Rmult_assoc, (Rmult_comm (bpow ex)), <- !Rmult_assoc.
    rewrite (Rmult_assoc x), Hh. ring. }
  clearbody m2.
  destruct (Z.eq_dec m2 (2 ^ 53)%Z) as [Hcarry|Hnocarry].
  - subst m2.
    change (Zdigits2 (2 ^ 53)) with 54%Z.
    replace (fexp prec emax (54 + (ex + k)) - (ex + k))%Z
      with 1%Z by (unfold fexp, emin, prec, emax; lia).
    change (2 ^ 53)%Z with 9007199254740992%Z in *.
    simpl shr. cbv iota. simpl shr_m. cbv iota.
    replace (ex + k + 1 <=? emax - prec)%Z with true
      by (symmetry; apply Z.leb_le; unfold emax, prec; lia).
    eexists _, _. split; [reflexivity|]. split; [reflexivity|].
    split; [lia|].
    rewrite Hval, bpow_add.
    replace (IZR (Z.pos 4503599627370496) * (bpow (ex + k) * bpow 1)
             - x1 * bpow (ex + k))
      with ((IZR 9007199254740992 - x1) * bpow (ex + k))
      by (replace (bpow 1) with 2 by (unfold bpow; simpl; ring); ring).
    abs_bpow.
    apply Rmult_le_compat_r; [left; apply bpow_pos | assumption].
  - destruct m2 as [|p2|p2]; try lia.
    assert (Hd2 : Z.pos (digits2_pos p2) = 53%Z)
      by (apply Zdigits2_unique; simpl; lia).
    replace (fexp prec emax (Zdigits2 (Z.pos p2) + (ex + k)) - (ex + k))%Z
      with 0%Z by (unfold fexp, emin, prec, emax; simpl Zdigits2; lia).
    simpl shr. cbv iota. simpl shr_m. cbv iota.
    replace (ex + k <=? emax - prec)%Z with true
      by (symmetry; apply Z.leb_le; unfold emax, prec; lia).
    exists p2, (ex + k)%Z. split; [reflexivity|]. split; [assumption|].
    split; [lia|].
    rewrite Hval, <- Rmult_minus_distr_r.
    abs_bpow.
    apply Rmult_le_compat_r; [left; apply bpow_pos | assumption].
Qed.

(** Relative form of the bound. *)
Lemma binary_round_aux_rel (mx ex : Z) (lx : location) (x : R) :
  (0 < mx)%Z -> (0 <= Zdigits2 mx - 53)%Z ->
  (-1074 <= ex + (Zdigits2 mx - 53))%Z ->
  (ex + (Zdigits2 mx - 53) + 1 <= 971)%Z ->
  inloc x (shr_record_of_loc mx lx) ->
  exists (m : positive) (e : Z),
    binary_round_aux prec emax false mx ex lx = S754_finite false m e /\
    Z.pos (digits2_pos m) = 53%Z /\
    (ex + (Zdigits2 mx - 53) <= e <= ex + (Zdigits2 mx - 53) + 1)%Z /\
    Rabs (IZR (Z.pos m) * bpow e - x * bpow ex)
      <= /2 * bpow (ex + (Zdigits2 mx - 53)) /\
    Rabs (IZR (Z.pos m) * bpow e - x * bpow ex) <= bpow (-53) * (x * bpow ex).
Proof.
  intros Hmx Hk Hlo Hhi Hx.
  destruct (binary_round_aux_spec mx ex lx x Hmx Hk Hlo Hhi Hx)
    as (m & e & Hm & Hd & He & Herr).
  exists m, e. do 4 (split; [assumption|]).
  eapply Rle_trans; [exact Herr|].
  (* half an ulp is at most 2^-53 of the value *)
  destruct mx as [|px|px]; try lia.
  pose proof (digits2_pos_bounds px) as [Hdlo _].
  change (Z.pos (digits2_pos px)) with (Zdigits2 (Z.pos px)) in Hdlo.
  set (k := (Zdigits2 (Z.pos px) - 53)%Z) in *.
  replace (Zdigits2 (Z.pos px) - 1)%Z with (52 + k)%Z in Hdlo
    by (unfold k; lia).
  apply IZR_le in Hdlo. rewrite <- bpow_IZR in Hdlo by lia.
  apply inloc_bounds in Hx.
  rewrite (proj2 (loc_of_record_of (Z.pos px) lx)) in Hx.
  assert (Hb : bpow (52 + k) <= x) by lra.
  replace (/2 * bpow (ex + k)) with (bpow (-53) * (bpow (52 + k) * bpow ex)).
  - apply Rmult_le_compat_l; [left; apply bpow_pos|].
    apply Rmult_le_compat_r; [left; apply bpow_pos | assumption].
  - rewrite <- !bpow_add. replace (-53 + (52 + k + ex))%Z with (-1 + (ex + k))%Z
      by lia.
    rewrite bpow_add. f_equal. unfold bpow. simpl. lra.
Qed.

Lemma near_integers_equal (a b : Z) : Rabs (IZR a - IZR b) <= /2 -> a = b.
Proof.
  intros H. rewrite <- minus_IZR in H.
  assert (Hb : -/2 <= IZR (a - b) <= /2).
  { unfold Rabs in H. destruct (Rcase_abs (IZR (a - b))); lra. }
  assert (-1 < a - b)%Z by (apply lt_IZR; lra).
  assert (a - b < 1)%Z by (apply lt_IZR; lra).
  lia.
Qed.

Lemma iter_xO_mul (p q : positive) :
  Z.pos (Pos.iter xO p q) = (Z.pos p * 2 ^ Z.pos q)%Z.
Proof.
  induction q as [|q IH] using Pos.peano_ind.
  - simpl. lia.
  - rewrite Pos.iter_succ, Pos2Z.inj_xO, IH, Pos2Z.inj_succ.
    rewrite Z.pow_succ_r by lia. lia.
Qed.

(** An integer below 2^53 is a Number. *)
Lemma of_int_exact (n : Z) :
  (0 < n < 2 ^ 53)%Z ->
  exists (m : positive) (e : Z),
    of_int n = S754_finite false m e /\
    Z.pos (digits2_pos m) = 53%Z /\ (-52 <= e <= 0)%Z /\
    IZR (Z.pos m) * bpow e = IZR n.
Proof.
  intros [Hpos Hlt]. destruct n as [|p|p]; try lia.
  unfold of_int, binary_normalize, binary_round.
  pose proof (digits2_pos_bounds p) as [Hdlo Hdhi].
  set (d := Z.pos (digits2_pos p)) in *.
  assert (Hd : (1 <= d <= 53)%Z).
  { split; [unfold d; lia|].
    destruct (Z_lt_le_dec 53 d) as [Hgt|]; [|assumption].
    assert (2 ^ 53 <= 2 ^ (d - 1))%Z by (apply Z.pow_le_mono_r; lia). lia. }
  replace (fexp prec emax (d + 0)) with (d - 53)%Z
    by (unfold fexp, emin, prec, emax; lia).
  assert (Hshl : exists mz,
             shl_align p 0 (d - 53) = (mz, (d - 53)%Z) /\
             Z.pos mz = (Z.pos p * 2 ^ (53 - d))%Z).
  { unfold shl_align. rewrite Z.sub_0_r.
    destruct (d - 53)%Z as [|q|q] eqn:Eq; try lia.
    - exists p. split; [reflexivity|]. replace (53 - d)%Z with 0%Z by lia.
      simpl. lia.
    - eexists. split; [reflexivity|]. rewrite iter_xO_mul.
      now replace (53 - d)%Z with (Z.pos q) by lia. }
  destruct Hshl as (mz & -> & Hmz).
  assert (Hdz : Z.pos (digits2_pos mz) = 53%Z).
  { apply Zdigits2_unique. rewrite Hmz. split.
    - replace (53 - 1)%Z with ((d - 1) + (53 - d))%Z by lia.
      rewrite Z.pow_add_r by lia.
      apply Z.mul_le_mono_nonneg_r; [apply Z.pow_nonneg; lia | assumption].
    - replace 53%Z with (d + (53 - d))%Z at 2 by lia.
      rewrite Z.pow_add_r by lia.
      apply Z.mul_lt_mono_pos_r; [apply Z.pow_pos_nonneg; lia | assumption]. }
  destruct (binary_round_aux_spec (Z.pos mz) (d - 53) loc_Exact
              (IZR (Z.pos mz))) as (m & e & Hm & Hdm & He & Herr);
    try (simpl Zdigits2; lia); [reflexivity|].
  simpl Zdigits2 in He, Herr. rewrite Hdz in He, Herr.
  replace (d - 53 + (53 - 53))%Z with (d - 53)%Z in He, Herr by lia.
  assert (Hvalue : IZR (Z.pos mz) * bpow (d - 53) = IZR (Z.pos p)).
  { rewrite Hmz, mult_IZR, <- bpow_IZR by lia.
    rewrite Rmult_assoc, <- bpow_add.
    replace (53 - d + (d - 53))%Z with 0%Z by lia.
    unfold bpow; simpl; ring. }
  assert (He' : e = (d - 53)%Z \/ e = (d - 53 + 1)%Z) by lia.
  destruct He' as [-> | ->].
  - exists m, (d - 53)%Z. split; [assumption|]. split; [assumption|].
    split; [lia|]. rewrite <- Hvalue. f_equal. f_equal.
    rewrite <- Rmult_minus_distr_r in Herr.
    abs_bpow_in Herr.
    apply near_integers_equal.
    apply Rmult_le_reg_r with (bpow (d - 53)); [apply bpow_pos | lra].
  - exfalso.
    (* a carry would give 54 digits to a mantissa of 53 *)
    rewrite bpow_add in Herr.
    replace (IZR (Z.pos m) * (bpow (d - 53) * bpow 1)
             - IZR (Z.pos mz) * bpow (d - 53))
      with ((IZR (2 * Z.pos m) - IZR (Z.pos mz)) * bpow (d - 53)) in Herr
      by (rewrite mult_IZR; replace (bpow 1) with 2
            by (unfold bpow; simpl; ring); ring).
    abs_bpow_in Herr.
    apply Rmult_le_reg_r in Herr; [|apply bpow_pos].
    apply near_integers_equal in Herr.
    pose proof (digits2_pos_bounds m) as [Hmlo _].
    pose proof (digits2_pos_bounds mz) as [_ Hzhi].
    rewrite Hdm in Hmlo. rewrite Hdz in Hzhi.
    change (2 ^ (53 - 1))%Z with 4503599627370496%Z in Hmlo.
    change (2 ^ 53)%Z with 9007199254740992%Z in Hzhi. lia.
Qed.

Lemma new_location_inloc (nb r q : Z) :
  (0 <= r < nb)%Z ->
  inloc (IZR q + IZR r / IZR nb) (shr_record_of_loc q (new_location nb r)).
Proof.
  intros [Hr Hnb].
  assert (Hnb0 : 0 < IZR nb) by (apply IZR_lt; lia).
  assert (Hfrac : IZR r / IZR nb * IZR nb = IZR r) by (field; lra).
  set (t := IZR r / IZR nb) in *. clearbody t.
  assert (Hexact : r = 0%Z ->
            inloc (IZR q + t) (shr_record_of_loc q loc_Exact)).
  { intros ->. unfold inloc; simpl.
    destruct (Rmult_integral _ _ Hfrac); lra. }
  assert (Hlt : forall a : R, IZR r < a * IZR nb -> t < a).
  { intros a Ha. apply Rmult_lt_reg_r with (IZR nb); [assumption|].
    now rewrite Hfrac. }
  assert (Hgt : forall a : R, a * IZR nb < IZR r -> a < t).
  { intros a Ha. apply Rmult_lt_reg_r with (IZR nb); [assumption|].
    now rewrite Hfrac. }
  assert (Ht1 : t < 1) by (apply Hlt; apply IZR_lt in Hnb; lra).
  assert (Hbelow : r <> 0%Z -> (2 * r < nb)%Z ->
            inloc (IZR q + t) (shr_record_of_loc q (loc_Inexact Lt))).
  { intros Hr0 Hc. apply IZR_lt in Hc. rewrite mult_IZR in Hc.
    assert (0 < IZR r) by (apply IZR_lt; lia).
    assert (0 < t) by (apply Hgt; lra).
    assert (t < /2) by (apply Hlt; lra).
    unfold inloc; simpl. lra. }
  assert (Hhalf : (2 * r = nb)%Z ->
            inloc (IZR q + t) (shr_record_of_loc q (loc_Inexact Eq))).
  { intros Hc. apply (f_equal IZR) in Hc. rewrite mult_IZR in Hc.
    assert (t = /2)
      by (apply Rmult_eq_reg_r with (IZR nb); [rewrite Hfrac|]; lra).
    unfold inloc; simpl. lra. }
  assert (Habove : (nb < 2 * r)%Z ->
            inloc (IZR q + t) (shr_record_of_loc q (loc_Inexact Gt))).
  { intros Hc. apply IZR_lt in Hc. rewrite mult_IZR in Hc.
    assert (/2 < t) by (apply Hgt; lra).
    unfold inloc; simpl. lra. }
  unfold new_location.
  destruct (Z.even nb) eqn:Heven;
    [unfold new_location_even | unfold new_location_odd];
    destruct (Z.eqb_spec r 0) as [Hr0|Hr0]; auto.
  - destruct (Z.compare_spec (2 * r) nb); auto.
  - assert (Hodd : (2 * r <> nb)%Z).
    { intros <-. rewrite Z.even_mul in Heven. discriminate. }
    destruct (Z.compare_spec (2 * r + 1) nb);
      [apply Hbelow | apply Hbelow | apply Habove]; lia.
Qed.

(** The quotient of two Numbers with full mantissas, in the range where
    it neither overflows nor underflows. *)
Lemma div_spec (mc mn : positive) (ec en : Z) :
  Z.pos (digits2_pos mc) = 53%Z -> Z.pos (digits2_pos mn) = 53%Z ->
  (-52 <= ec <= 0)%Z -> (-52 <= en <= 0)%Z ->
  exists (m : positive) (e : Z),
    div (S754_finite false mc ec) (S754_finite false mn en)
      = S754_finite false m e /\
    Z.pos (digits2_pos m) = 53%Z /\ (-105 <= e <= 1)%Z /\
    Rabs (IZR (Z.pos m) * bpow e
          - IZR (Z.pos mc) * bpow ec / (IZR (Z.pos mn) * bpow en))
      <= bpow (-53) * (IZR (Z.pos mc) * bpow ec / (IZR (Z.pos mn) * bpow en)).
Proof.
  intros Hdc Hdn Hec Hen.
  unfold div, SFdiv, SFdiv_core_binary. simpl Zdigits2. rewrite Hdc, Hdn.
  replace (Z.min (fexp prec emax (53 + ec - (53 + en))) (ec - en))
    with (ec - en - 53)%Z by (unfold fexp, emin, prec, emax; lia).
  replace (ec - en - (ec - en - 53))%Z with 53%Z by lia.
  cbv beta iota zeta.
  rewrite Z.shiftl_mul_pow2 by lia.
  pose proof (Z_div_mod (Z.pos mc * 2 ^ 53) (Z.pos mn) eq_refl) as Hdiv.
  destruct (Z.div_eucl (Z.pos mc * 2 ^ 53) (Z.pos mn)) as [q r].
  destruct Hdiv as [Hqr Hr].
  pose proof (digits2_pos_bounds mc) as [Hclo Hchi].
  pose proof (digits2_pos_bounds mn) as [Hnlo Hnhi].
  rewrite Hdc in Hclo, Hchi. rewrite Hdn in Hnlo, Hnhi.
  change (2 ^ (53 - 1))%Z with 4503599627370496%Z in Hclo, Hnlo.
  change (2 ^ 53)%Z with 9007199254740992%Z in *.
  assert (Hq : (4503599627370496 <= q < 2 * 9007199254740992)%Z) by nia.
  assert (Hdq : (53 <= Zdigits2 q <= 54)%Z).
  { destruct q as [|pq|pq]; try lia. simpl Zdigits2.
    pose proof (digits2_pos_bounds pq) as [Hqlo Hqhi].
    split.
    - destruct (Z_lt_le_dec (Z.pos (digits2_pos pq)) 53) as [Hlt|]; [|lia].
      assert (2 ^ Z.pos (digits2_pos pq) <= 2 ^ 52)%Z
        by (apply Z.pow_le_mono_r; lia).
      change (2 ^ 52)%Z with 4503599627370496%Z in *. lia.
    - destruct (Z_lt_le_dec 54 (Z.pos (digits2_pos pq))) as [Hgt|]; [|lia].
      assert (2 ^ 54 <= 2 ^ (Z.pos (digits2_pos pq) - 1))%Z
        by (apply Z.pow_le_mono_r; lia).
      change (2 ^ 54)%Z with 18014398509481984%Z in *. lia. }
  destruct (binary_round_aux_rel q (ec - en - 53) (new_location (Z.pos mn) r)
              (IZR q + IZR r / IZR (Z.pos mn)))
    as (m & e & Hm & Hdm & He & _ & Hrel); try lia.
  { now apply new_location_inloc. }
  exists m, e. split; [assumption|]. split; [assumption|]. split; [lia|].
  replace (IZR (Z.pos mc) * bpow ec / (IZR (Z.pos mn) * bpow en))
    with ((IZR q + IZR r / IZR (Z.pos mn)) * bpow (ec - en - 53));
    [assumption|].
  assert (Hn0 : 0 < IZR (Z.pos mn)) by (apply IZR_lt; lia).
  pose proof (bpow_pos en) as Hben.
  replace (IZR q + IZR r / IZR (Z.pos mn))
    with (IZR (Z.pos mc * 9007199254740992) / IZR (Z.pos mn))
    by (rewrite Hqr, plus_IZR, mult_IZR; field; lra).
  rewrite mult_IZR.
  replace (ec - en - 53)%Z with (ec + (- en + -53))%Z by lia.
  rewrite !bpow_add.
  replace (bpow (- en)) with (/ bpow en).
  - replace (bpow (-53)) with (/ IZR 9007199254740992)
      by (unfold bpow; simpl; lra).
    field. lra.
  - unfold bpow. rewrite powerRZ_neg'. reflexivity.
Qed.

(** The product of two Numbers with full mantissas, in the range where it
    neither overflows nor underflows. *)
Lemma mul_spec (m1 m2 : positive) (e1 e2 : Z) :
  Z.pos (digits2_pos m1) = 53%Z -> Z.pos (digits2_pos m2) = 53%Z ->
  (-200 <= e1 <= 200)%Z -> (-200 <= e2 <= 200)%Z ->
  exists (m : positive) (e : Z),
    mul (S754_finite false m1 e1) (S754_finite false m2 e2)
      = S754_finite false m e /\
    Z.pos (digits2_pos m) = 53%Z /\
    Rabs (IZR (Z.pos m) * bpow e
          - IZR (Z.pos m1) * bpow e1 * (IZR (Z.pos m2) * bpow e2))
      <= bpow (-53) * (IZR (Z.pos m1) * bpow e1 * (IZR (Z.pos m2) * bpow e2)).
Proof.
  intros Hd1 Hd2 He1 He2. unfold mul, SFmul. simpl xorb.
  pose proof (digits2_pos_bounds m1) as [H1lo H1hi].
  pose proof (digits2_pos_bounds m2) as [H2lo H2hi].
  rewrite Hd1 in H1lo, H1hi. rewrite Hd2 in H2lo, H2hi.
  change (2 ^ (53 - 1))%Z with 4503599627370496%Z in H1lo, H2lo.
  change (2 ^ 53)%Z with 9007199254740992%Z in *.
  assert (Hp : (2 ^ 104 <= Z.pos (m1 * m2) < 2 ^ 106)%Z).
  { rewrite Pos2Z.inj_mul.
    change (2 ^ 104)%Z with (4503599627370496 * 4503599627370496)%Z.
    change (2 ^ 106)%Z with (9007199254740992 * 9007199254740992)%Z. nia. }
  assert (Hdp : (105 <= Zdigits2 (Z.pos (m1 * m2)) <= 106)%Z).
  { simpl Zdigits2.
    pose proof (digits2_pos_bounds (m1 * m2)) as [Hlo Hhi].
    split.
    - destruct (Z_lt_le_dec (Z.pos (digits2_pos (m1 * m2))) 105) as [Hlt|];
        [|lia].
      assert (2 ^ Z.pos (digits2_pos (m1 * m2)) <= 2 ^ 104)%Z
        by (apply Z.pow_le_mono_r; lia). lia.
    - destruct (Z_lt_le_dec 106 (Z.pos (digits2_pos (m1 * m2)))) as [Hgt|];
        [|lia].
      assert (2 ^ 106 <= 2 ^ (Z.pos (digits2_pos (m1 * m2)) - 1))%Z
        by (apply Z.pow_le_mono_r; lia). lia. }
  destruct (binary_round_aux_rel (Z.pos (m1 * m2)) (e1 + e2) loc_Exact
              (IZR (Z.pos (m1 * m2))))
    as (m & e & Hm & Hdm & He & _ & Hrel); try lia; [reflexivity|].
  exists m, e. split; [assumption|]. split; [assumption|].
  replace (IZR (Z.pos m1) * bpow e1 * (IZR (Z.pos m2) * bpow e2))
    with (IZR (Z.pos (m1 * m2)) * bpow (e1 + e2)); [assumption|].
  rewrite Pos2Z.inj_mul, mult_IZR, bpow_add. ring.
Qed.

(** [Math.round] of a positive Number is the floor of what comes after
    adding a half. *)
Lemma Math_round_spec (m : positive) (e : Z) :
  exists r : Z,
    Math_round (S754_finite false m e) = Int r /\
    IZR r <= IZR (Z.pos m) * bpow e + /2 < IZR r + 1.
Proof.
  unfold Math_round. destruct e as [|p|k].
  - eexists. split; [reflexivity|].
    rewrite Z.pow_0_r, Z.mul_1_r. unfold bpow. simpl. lra.
  - eexists. split; [reflexivity|].
    rewrite mult_IZR, <- bpow_IZR by lia. lra.
  - eexists. split; [reflexivity|].
    set (D := (2 ^ (Z.pos k + 1))%Z).
    assert (HD : (0 < D)%Z) by (apply Z.pow_pos_nonneg; lia).
    set (a := (2 * Z.pos m + 2 ^ Z.pos k)%Z).
    pose proof (Z.mul_div_le a D HD) as Hle.
    pose proof (Z.mul_succ_div_gt a D HD) as Hgt.
    set (r := (a / D)%Z) in *.
    apply IZR_le in Hle. apply IZR_lt in Hgt.
    rewrite mult_IZR in Hle. rewrite mult_IZR, succ_IZR in Hgt.
    assert (HDr : IZR D = 2 * bpow (Z.pos k)).
    { unfold D. rewrite <- bpow_IZR, bpow_add by lia.
      unfold bpow at 2. simpl. lra. }
    assert (Ha : IZR a = (IZR (Z.pos m) * bpow (Z.neg k) + /2) * IZR D).
    { unfold a. rewrite plus_IZR, mult_IZR, <- bpow_IZR, HDr by lia.
      change (Z.neg k) with (- Z.pos k)%Z.
      replace (bpow (- Z.pos k)) with (/ bpow (Z.pos k))
        by (unfold bpow; now rewrite powerRZ_neg').
      pose proof (bpow_pos (Z.pos k)). field. lra. }
    assert (HD0 : 0 < IZR D) by (apply IZR_lt; lia).
    rewrite Ha in Hle, Hgt. split.
    + apply Rmult_le_reg_l with (IZR D); [assumption|]. lra.
    + apply Rmult_lt_reg_l with (IZR D); [assumption|]. lra.
Qed.

Lemma Rabs_bound (a b : R) : Rabs a <= b -> - b <= a <= b.
Proof. unfold Rabs. destruct (Rcase_abs a); lra. Qed.

(** A relative bound scaled by a positive factor. *)
Lemma scaled_bound (N F v u : R) :
  0 < N -> Rabs (F - v) <= u * v ->
  N * v - u * (N * v) <= N * F <= N * v + u * (N * v).
Proof.
  intros HN Hb. apply Rabs_bound in Hb. destruct Hb as [Hlo Hhi].
  apply (Rmult_le_compat_l N) in Hlo; [|lra].
  apply (Rmult_le_compat_l N) in Hhi; [|lra].
  split; lra.
Qed.

Lemma of_int_100 : of_int 100 = S754_finite false 7036874417766400 (-46).
Proof. reflexivity. Qed.

(** The percentage is an integer nearest to [100 * completed / total]. *)
Lemma percentage_nearest (c : Z) (n : nat) :
  (0 <= c <= Z.of_nat n)%Z -> (0 < Z.of_nat n < 2 ^ 32)%Z ->
  exists r : Z,
    percentage c n = decimal (Z.to_N r) ++ lit "%" /\
    (0 <= r)%Z /\
    (Z.abs (200 * c - 2 * r * Z.of_nat n) <= Z.of_nat n)%Z.
Proof.
  intros [Hc0 Hcn] [Hn0 Hn32]. unfold percentage.
  change (2 ^ 32)%Z with 4294967296%Z in Hn32.
  destruct (of_int_exact (Z.of_nat n)) as (mn & en & -> & Hdn & Hen & Hvn).
  { change (2 ^ 53)%Z with 9007199254740992%Z. lia. }
  destruct (Z.eq_dec c 0%Z) as [->|Hc].
  { exists 0%Z. split; [reflexivity|]. lia. }
  destruct (of_int_exact c) as (mc & ec & -> & Hdc & Hec & Hvc).
  { change (2 ^ 53)%Z with 9007199254740992%Z. lia. }
  destruct (div_spec mc mn ec en Hdc Hdn Hec Hen)
    as (m1 & e1 & -> & Hd1 & He1 & Herr1).
  rewrite Hvc, Hvn in Herr1.
  rewrite of_int_100.
  destruct (mul_spec m1 7036874417766400 e1 (-46) Hd1 eq_refl)
    as (m2 & e2 & -> & Hd2 & Herr2); try lia.
  replace (IZR (Z.pos 7036874417766400) * bpow (-46)) with 100 in Herr2
    by (unfold bpow; simpl; lra).
  destruct (Math_round_spec m2 e2) as (r & -> & Hr).
  set (F1 := IZR (Z.pos m1) * bpow e1) in *.
  set (F2 := IZR (Z.pos m2) * bpow e2) in *.
  clearbody F1 F2.
  set (N := IZR (Z.of_nat n)) in *. set (C := IZR c) in *.
  assert (HN : 1 <= N < 4294967296)
    by (split; [apply (IZR_le 1) | apply IZR_lt]; lia).
  assert (HC : 1 <= C <= N)
    by (split; [apply (IZR_le 1) | apply IZR_le]; lia).
  assert (Hv : N * (C / N) = C) by (field; lra).
  replace (bpow (-53)) with (/ 9007199254740992) in Herr1, Herr2
    by (unfold bpow; simpl; lra).
  apply (scaled_bound N) in Herr1; [|lra]. rewrite Hv in Herr1.
  apply (scaled_bound N) in Herr2; [|lra].
  replace (N * (F1 * 100)) with (100 * (N * F1)) in Herr2 by ring.
  set (P1 := N * F1) in *. set (P2 := N * F2) in *.
  assert (HP2 : 100 * C - /2 < P2 < 100 * C + /2) by (split; lra).
  destruct Hr as [Hrlo Hrhi].
  apply (Rmult_le_compat_l N) in Hrlo; [|lra].
  apply (Rmult_lt_compat_l N) in Hrhi; [|lra].
  replace (N * (F2 + /2)) with (P2 + N / 2) in Hrlo, Hrhi
    by (unfold P2; field).
  replace (N * (IZR r + 1)) with (N * IZR r + N) in Hrhi by ring.
  assert (H1 : (2 * (Z.of_nat n * r) < 200 * c + 1 + Z.of_nat n)%Z).
  { apply lt_IZR. rewrite !plus_IZR, !mult_IZR. fold N C. lra. }
  assert (H2 : (200 * c - 1 < 2 * (Z.of_nat n * r) + Z.of_nat n)%Z).
  { apply lt_IZR. rewrite plus_IZR, minus_IZR, !mult_IZR. fold N C. lra. }
  exists r. split.
  - destruct r as [|pr|pr]; try reflexivity. exfalso. nia.
  - split; [nia | lia].
Qed.

End Binary64Facts.

Lemma remainingTasks_le (todos : list Task) :
  (remainingTasks todos <= length todos)%nat.
Proof. apply List.filter_length_le. Qed.

Lemma completedTasks_count (todos : list Task) :
  completedTasks todos = Z.of_nat (length (List.filter isCompleted todos)).
Proof.
  unfold completedTasks, remainingTasks.
  induction todos as [|t l IH]; [reflexivity|].
  simpl. destruct (isCompleted t); simpl length; lia.
Qed.

Lemma completedTasks_all (todos : list Task) :
  Forall (fun t => isCompleted t = true) todos ->
  completedTasks todos = Z.of_nat (length todos).
Proof.
  intros Hall. rewrite completedTasks_count. now rewrite filter_all.
Qed.

(** C4.  For a task list of fewer than 2^32 elements (every array is),
    [calculerProgress] returns ["0%"] when the list is empty, ["100%"] when
    it is not empty and every task is completed, and always the decimal
    writing of an integer nearest to a hundred times the number of
    completed tasks over the number of tasks, followed by ["%"]. *)
Theorem calculerProgress_nearest_percent (todos : list Task) :
  Z.of_nat (length todos) < 2 ^ 32 ->
  (todos = [] -> V2.calculerProgress todos = lit "0%") /\
  (todos <> [] -> Forall (fun t => isCompleted t = true) todos ->
   V2.calculerProgress todos = lit "100%") /\
  completedTasks todos = Z.of_nat (length (List.filter isCompleted todos)) /\
  exists r : Z,
    V2.calculerProgress todos = decimal (Z.to_N r) ++ lit "%" /\
    0 <= r /\
    Z.abs (200 * completedTasks todos - 2 * r * Z.of_nat (length todos))
    <= Z.of_nat (length todos).
Proof.
  intros Hlen.
  assert (Hnear : exists r : Z,
             V2.calculerProgress todos = decimal (Z.to_N r) ++ lit "%" /\
             0 <= r /\
             Z.abs (200 * completedTasks todos
                    - 2 * r * Z.of_nat (length todos))
             <= Z.of_nat (length todos)).
  { destruct todos as [|t l];
      [exists 0; split;
         [reflexivity | unfold completedTasks, remainingTasks; simpl; lia]|].
    unfold V2.calculerProgress. simpl Nat.eqb. cbv iota.
    apply Binary64Facts.percentage_nearest.
    - pose proof (remainingTasks_le (t :: l)). unfold completedTasks. lia.
    - split; [simpl length; lia | assumption]. }
  split; [now intros ->|]. split; [|split; [apply completedTasks_count|]];
    [|assumption].
  intros Hne Hall. destruct Hnear as (r & -> & Hr0 & Hr).
  rewrite (completedTasks_all todos Hall) in Hr.
  assert (Hn : 0 < Z.of_nat (length todos))
    by (destruct todos; [contradiction | simpl length; lia]).
  assert (r = 100) as -> by nia.
  reflexivity.
Qed.

Lemma calculerProgress_nearest_percent_witness :
  exists r : Z,
    V2.calculerProgress three_tasks = decimal (Z.to_N r) ++ lit "%" /\
    0 <= r /\
    Z.abs (200 * completedTasks three_tasks
           - 2 * r * Z.of_nat (length three_tasks))
    <= Z.of_nat (length three_tasks).
Proof.
  apply (calculerProgress_nearest_percent three_tasks). simpl. lia.
Defined.

(** One task of three, two of three, one of eight (a tie, rounded up) and
    29 of 200 (a tie for the exact quotient; the computed Number is just
    below 14.5). *)
Example calculerProgress_values :
  V2.calculerProgress three_tasks = lit "33%" /\
  V2.calculerProgress [task 1 true low; task 2 true low; task 3 false low]
  = lit "67%" /\
  V2.calculerProgress (List.repeat (task 0 true low) 1
                       ++ List.repeat (task 0 false low) 7) = lit "13%" /\
  V2.calculerProgress (List.repeat (task 0 true low) 29
                       ++ List.repeat (task 0 false low) 171) = lit "14%".
Proof. repeat split; vm_compute; reflexivity. Qed.

(** The scenario of the specification: an empty store, an add, an add of
    the empty string, a toggle of the task added. *)
Example buy_milk_scenario :
  length (V2.todos
    (@V2.run decimal_runtime default_props (idle [] "")
       [V2.Change (lit "Buy milk"); V2.Ajouter noon])) = 1%nat /\
  remainingTasks (V2.todos
    (@V2.run decimal_runtime default_props (idle [] "")
       [V2.Change (lit "Buy milk"); V2.Ajouter noon])) = 1%nat /\
  length (V2.todos
    (@V2.run decimal_runtime default_props (idle [] "")
       [V2.Change (lit "Buy milk"); V2.Ajouter noon;
        V2.Change (lit ""); V2.Ajouter noon])) = 1%nat /\
  remainingTasks (V2.todos
    (@V2.run decimal_runtime default_props (idle [] "")
       [V2.Change (lit "Buy milk"); V2.Ajouter noon;
        V2.Change (lit ""); V2.Ajouter noon;
        V2.Toggle 1700000000000])) = 0%nat /\
  completedTasks (V2.todos
    (@V2.run decimal_runtime default_props (idle [] "")
       [V2.Change (lit "Buy milk"); V2.Ajouter noon;
        V2.Change (lit ""); V2.Ajouter noon;
        V2.Toggle 1700000000000])) = 1 /\
  V2.calculerProgress (V2.todos
    (@V2.run decimal_runtime default_props (idle [] "")
       [V2.Change (lit "Buy milk"); V2.Ajouter noon;
        V2.Change (lit ""); V2.Ajouter noon;
        V2.Toggle 1700000000000])) = lit "100%".
Proof. repeat split. Qed.

(** ** The first version

    Where the first version of the component differs from the second on
    what the statements above are about. *)

(** Its [ajouterTodo] has no limit: [maxTodos] is only the [maxLength] of
    the input field, and the title is stored untrimmed. *)
Fact V1_ajouterTodo_appends (clock : Clock) (s : V1.State) :
  trim (V1.inputValue s) <> [] ->
  V1.todos (V1.ajouterTodo clock s)
  = V1.todos s
    ++ [ {| id := Date_now clock; titre := V1.inputValue s;
            isCompleted := false; userId := None; createdAt := None;
            priority := None |} ].
Proof.
  intros Hinput. unfold V1.ajouterTodo.
  apply non_empty_true in Hinput. now rewrite Hinput.
Qed.

(** Its [calculerProgress] divides by the length without a guard. *)
Fact V1_calculerProgress_empty : V1.calculerProgress [] = lit "NaN%".
Proof. reflexivity. Qed.

(** Its promise chain has no rejection handler: a failed request leaves
    the state as it is, [isLoading] included, and the rejection
    unhandled. *)
Fact V1_fetch_failure (o : FetchOutcome) (s : V1.State) :
  V1.apiTasks o = None -> V1.fetch_settled o s = (s, Rejected).
Proof. intros Hfail. unfold V1.fetch_settled. now rewrite Hfail. Qed.

(** Its [supprimerTask] compares with [!==]: a string removes nothing. *)
Fact V1_supprimerTask_string (str : jsstring) (s : V1.State) :
  V1.supprimerTask (IdString str) s = s.
Proof.
  unfold V1.supprimerTask. destruct s as [l v f b]. unfold V1.setTodos.
  simpl. f_equal. induction l as [|t l IH]; simpl; [reflexivity|].
  now rewrite IH.
Qed.

(** * Further properties *)

(** ** Bulk operations and counters *)

Lemma with_isCompleted_same (t : Task) :
  with_isCompleted (isCompleted t) t = t.
Proof. now destruct t. Qed.

Lemma filter_nil_iff {A} (f : A -> bool) (l : list A) :
  List.filter f l = [] <-> forall t, In t l -> f t = false.
Proof.
  induction l as [|a l IH]; simpl; [tauto|].
  destruct (f a) eqn:E.
  - split; [discriminate|]. intros H. rewrite (H a) in E by now left.
    discriminate.
  - rewrite IH. split.
    + intros H t [<-|Ht]; auto.
    + intros H t Ht. apply H. now right.
Qed.

Lemma remaining_filter_active (l : list Task) :
  remainingTasks (List.filter (fun t => negb (isCompleted t)) l)
  = remainingTasks l.
Proof. unfold remainingTasks. now rewrite filter_filter_same. Qed.

Lemma map_with_isCompleted_true (l : list Task) :
  Forall (fun t => isCompleted t = true) (List.map (with_isCompleted true) l).
Proof. induction l; simpl; constructor; auto. Qed.

Lemma remainingTasks_all_completed (l : list Task) :
  Forall (fun t => isCompleted t = true) l -> remainingTasks l = 0%nat.
Proof.
  intros Hall. unfold remainingTasks.
  now rewrite (filter_none isCompleted l Hall).
Qed.

(** X1.  [clearCompletedTodos] keeps exactly the tasks that are not
    completed, in their order; afterwards no task is completed, the number
    of remaining tasks is what it was, and a second call changes
    nothing. *)
Theorem clearCompletedTodos_keeps_active (s : V2.State) :
  (forall t, In t (V2.todos (V2.clearCompletedTodos s)) <->
             In t (V2.todos s) /\ isCompleted t = false) /\
  sublist (V2.todos (V2.clearCompletedTodos s)) (V2.todos s) /\
  remainingTasks (V2.todos (V2.clearCompletedTodos s))
  = remainingTasks (V2.todos s) /\
  completedTasks (V2.todos (V2.clearCompletedTodos s)) = 0 /\
  V2.clearCompletedTodos (V2.clearCompletedTodos s) = V2.clearCompletedTodos s.
Proof.
  split; [|split; [|split; [|split]]].
  - intros t. simpl. rewrite List.filter_In, negb_true_iff. reflexivity.
  - apply filter_sublist.
  - apply remaining_filter_active.
  - simpl. unfold completedTasks. rewrite remaining_filter_active.
    unfold remainingTasks. lia.
  - destruct s; unfold V2.clearCompletedTodos, V2.set_todos; simpl.
    now rewrite filter_filter_same.
Qed.

(** X2.  [marquerToutCompleted] completes every task and touches nothing
    else: each task keeps its place and its five other fields (identifier,
    title, user, creation date, priority), so the list afterwards is the
    list before with every [isCompleted] set; no task remains; the other
    fields of the state are as they were; a second call changes
    nothing. *)
Theorem marquerToutCompleted_completes (s : V2.State) :
  length (V2.todos (V2.marquerToutCompleted s)) = length (V2.todos s) /\
  (forall k t,
     V2.todos s !! k = Some t ->
     V2.todos (V2.marquerToutCompleted s) !! k
     = Some {| id := id t; titre := titre t; isCompleted := true;
               userId := userId t; createdAt := createdAt t;
               priority := priority t |}) /\
  Forall (fun t => isCompleted t = true)
    (V2.todos (V2.marquerToutCompleted s)) /\
  ids (V2.todos (V2.marquerToutCompleted s)) = ids (V2.todos s) /\
  List.map titre (V2.todos (V2.marquerToutCompleted s))
  = List.map titre (V2.todos s) /\
  List.map userId (V2.todos (V2.marquerToutCompleted s))
  = List.map userId (V2.todos s) /\
  List.map createdAt (V2.todos (V2.marquerToutCompleted s))
  = List.map createdAt (V2.todos s) /\
  List.map priority (V2.todos (V2.marquerToutCompleted s))
  = List.map priority (V2.todos s) /\
  remainingTasks (V2.todos (V2.marquerToutCompleted s)) = 0%nat /\
  completedTasks (V2.todos (V2.marquerToutCompleted s))
  = Z.of_nat (length (V2.todos s)) /\
  (V2.inputValue (V2.marquerToutCompleted s) = V2.inputValue s /\
   V2.filtre (V2.marquerToutCompleted s) = V2.filtre s /\
   V2.isLoading (V2.marquerToutCompleted s) = V2.isLoading s /\
   V2.error (V2.marquerToutCompleted s) = V2.error s /\
   V2.lastUpdated (V2.marquerToutCompleted s) = V2.lastUpdated s /\
   V2.selectedPriority (V2.marquerToutCompleted s)
   = V2.selectedPriority s) /\
  V2.marquerToutCompleted (V2.marquerToutCompleted s)
  = V2.marquerToutCompleted s.
Proof.
  simpl. repeat split.
  - apply List.length_map.
  - intros k t Hk.
    change (List.map (with_isCompleted true) (V2.todos s))
      with (with_isCompleted true <$> V2.todos s).
    now rewrite list_lookup_fmap, Hk.
  - apply map_with_isCompleted_true.
  - now apply ids_map_same.
  - rewrite List.map_map. now apply List.map_ext.
  - rewrite List.map_map. now apply List.map_ext.
  - rewrite List.map_map. now apply List.map_ext.
  - rewrite List.map_map. now apply List.map_ext.
  - apply remainingTasks_all_completed, map_with_isCompleted_true.
  - rewrite completedTasks_all by apply map_with_isCompleted_true.
    now rewrite List.length_map.
  - destruct s; unfold V2.marquerToutCompleted, V2.set_todos; simpl.
    f_equal. rewrite List.map_map. now apply List.map_ext.
Qed.

(** X3.  Completing everything and then clearing the completed tasks
    empties the list, whatever it held. *)
Theorem marquerTout_then_clear_empties (s : V2.State) :
  V2.todos (V2.clearCompletedTodos (V2.marquerToutCompleted s)) = [].
Proof.
  simpl. apply (filter_none isCompleted), map_with_isCompleted_true.
Qed.

(** ** The view and the counts of the filter buttons *)

Lemma sort_insert_Permutation {A} (compareFn : A -> A -> Z) (a : A)
  (l : list A) : Permutation (sort_insert compareFn a l) (a :: l).
Proof.
  induction l as [|b l IH]; simpl; [reflexivity|].
  destruct (compareFn a b <=? 0); [reflexivity|].
  rewrite IH. apply perm_swap.
Qed.

Lemma sort_perm {A} (compareFn : A -> A -> Z) (l : list A) :
  Permutation (sort compareFn l) l.
Proof.
  induction l as [|a l IH]; simpl; [reflexivity|].
  rewrite sort_insert_Permutation. now constructor.
Qed.

(** X4.  Whatever the comparator, even an inconsistent one, [sort]
    returns the elements it was given, each as many times: nothing is lost
    or duplicated, and the length is kept. *)
Theorem sort_Permutation {A} (compareFn : A -> A -> Z) (l : list A) :
  Permutation (sort compareFn l) l /\
  length (sort compareFn l) = length l.
Proof.
  split; [apply sort_perm | apply Permutation_length, sort_perm].
Qed.

Lemma filteredTodos_length (todos : list Task) (f : FilterType) :
  length (V2.filteredTodos todos f)
  = length (List.filter (V2.shown f) todos).
Proof. apply Permutation_length, sort_perm. Qed.

(** X5.  The view holds exactly the tasks of the list that the filter
    shows, each as often as in the list; with pairwise distinct identifiers
    in the list, the lines of the view have pairwise distinct
    identifiers. *)
Theorem filteredTodos_members (todos : list Task) (f : FilterType) :
  Permutation (V2.filteredTodos todos f) (List.filter (V2.shown f) todos) /\
  (forall t, In t (V2.filteredTodos todos f) <->
             In t todos /\ V2.shown f t = true) /\
  (NoDup (ids todos) -> NoDup (ids (V2.filteredTodos todos f))).
Proof.
  assert (Hperm : Permutation (V2.filteredTodos todos f)
                    (List.filter (V2.shown f) todos))
    by apply sort_perm.
  split; [assumption|]. split.
  - intros t. rewrite <- List.filter_In, <- !list_elem_of_In.
    now rewrite Hperm.
  - intros Hnd. apply (NoDup_ids_filter (V2.shown f)) in Hnd.
    unfold ids in *.
    assert (Hp : Permutation (List.map id (V2.filteredTodos todos f))
                   (List.map id (List.filter (V2.shown f) todos)))
      by now apply Permutation_map.
    now rewrite Hp.
Qed.

Lemma remaining_plus_completed (todos : list Task) :
  Z.of_nat (remainingTasks todos) + completedTasks todos
  = Z.of_nat (length todos).
Proof. unfold completedTasks. lia. Qed.

(** X6.  The number each filter button shows is the number of lines its
    view has: [todos.length] for all, [remainingTasks] for the active
    ones, [completedTasks] for the completed ones and the high-priority
    count for the high-priority ones; the remaining and the completed
    tasks add up to all of them. *)
Theorem filter_button_counts (todos : list Task) :
  length (V2.filteredTodos todos tous) = length todos /\
  length (V2.filteredTodos todos active) = remainingTasks todos /\
  Z.of_nat (length (V2.filteredTodos todos termine)) = completedTasks todos /\
  length (V2.filteredTodos todos high_priority)
  = Markup.high_active_count todos /\
  Z.of_nat (remainingTasks todos) + completedTasks todos
  = Z.of_nat (length todos) /\
  0 <= completedTasks todos <= Z.of_nat (length todos).
Proof.
  rewrite !filteredTodos_length. split; [|split; [|split; [|split; [|split]]]].
  - simpl. f_equal. apply filter_all. now apply List.Forall_forall.
  - reflexivity.
  - now rewrite completedTasks_count.
  - reflexivity.
  - apply remaining_plus_completed.
  - pose proof (remainingTasks_le todos). unfold completedTasks. lia.
Qed.

(** ** The buttons and the messages *)

(** X7.  When the add button is enabled, [ajouterTodo] appends a task and
    raises no alert.  The alert is only raised with a non-empty trimmed
    input and a full list, that is with the button disabled (through the
    Enter key), and then the state is unchanged; a key other than Enter
    does nothing. *)
Theorem add_button_adds (props : TodoListProps) (clock : Clock)
  (s : V2.State) :
  (Markup.add_disabled props s = false ->
   snd (V2.ajouterTodo props clock s) = None /\
   exists t, V2.todos (fst (V2.ajouterTodo props clock s))
             = V2.todos s ++ [t]) /\
  (forall notice,
     snd (V2.ajouterTodo props clock s) = Some notice ->
     notice = MaximumReached (maxTodos props) /\
     trim (V2.inputValue s) <> [] /\
     maxTodos props <= Z.of_nat (length (V2.todos s)) /\
     Markup.add_disabled props s = true /\
     fst (V2.ajouterTodo props clock s) = s) /\
  (forall key, key <> lit "Enter" ->
               Markup.handleKeyPress props clock key s = (s, None)) /\
  Markup.handleKeyPress props clock (lit "Enter") s
  = V2.ajouterTodo props clock s.
Proof.
  unfold Markup.add_disabled, V2.ajouterTodo.
  split; [|split; [|split]].
  - intros Hen. apply orb_false_iff in Hen as [Hen Hfull].
    apply orb_false_iff in Hen as [_ Hinput].
    apply negb_false_iff in Hinput. rewrite Hinput, Hfull. simpl.
    split; [reflexivity | eexists; reflexivity].
  - intros notice. destruct (non_empty _) eqn:Hinput; [|discriminate].
    destruct (Z.geb_spec (Z.of_nat (length (V2.todos s))) (maxTodos props))
      as [Hfull|Hroom]; [|discriminate].
    simpl. intros [= <-]. split; [reflexivity|].
    split; [now apply non_empty_true|]. split; [lia|].
    split; [|reflexivity]. now rewrite orb_true_r.
  - intros key Hkey. unfold Markup.handleKeyPress.
    now destruct (decide (key = lit "Enter")).
  - unfold Markup.handleKeyPress.
    now destruct (decide (lit "Enter" = lit "Enter")).
Qed.

Lemma filter_id_Forall {A} (f : A -> bool) (l : list A) :
  List.filter f l = l -> Forall (fun t => f t = true) l.
Proof.
  induction l as [|a l IH]; simpl; [constructor|].
  destruct (f a) eqn:E.
  - intros [= H]. constructor; auto.
  - intros H. pose proof (List.filter_length_le f l) as Hle.
    rewrite H in Hle. simpl in Hle. lia.
Qed.

Lemma no_completed_iff (l : list Task) :
  completedTasks l = 0 <-> Forall (fun t => negb (isCompleted t) = true) l.
Proof.
  rewrite completedTasks_count. split.
  - intros H. apply List.Forall_forall. intros t Ht.
    destruct (isCompleted t) eqn:E; [|reflexivity]. exfalso.
    assert (Hin : In t (List.filter isCompleted l))
      by now apply List.filter_In.
    destruct (List.filter isCompleted l); [destruct Hin | discriminate].
  - intros H. replace (List.filter isCompleted l) with (@nil Task);
      [reflexivity|].
    symmetry. induction H as [|t l Ht _ IH]; simpl; [reflexivity|].
    apply negb_true_iff in Ht. now rewrite Ht.
Qed.

Lemma no_remaining_iff (l : list Task) :
  remainingTasks l = 0%nat <-> Forall (fun t => isCompleted t = true) l.
Proof.
  split; [|apply remainingTasks_all_completed].
  unfold remainingTasks. intros H. apply List.Forall_forall. intros t Ht.
  destruct (isCompleted t) eqn:E; [reflexivity|]. exfalso.
  assert (Hin : In t (List.filter (fun t => negb (isCompleted t)) l))
    by (apply List.filter_In; now rewrite E).
  destruct (List.filter _ l); [destruct Hin | discriminate].
Qed.

(** X8.  The clear button is disabled exactly when [clearCompletedTodos]
    would change nothing, and the mark-all button exactly when
    [marquerToutCompleted] would change nothing. *)
Theorem footer_buttons_disabled_iff_noop (s : V2.State) :
  (Markup.clear_disabled s = true <-> V2.clearCompletedTodos s = s) /\
  (Markup.mark_all_disabled s = true <-> V2.marquerToutCompleted s = s).
Proof.
  unfold Markup.clear_disabled, Markup.mark_all_disabled. split.
  - rewrite Z.eqb_eq, no_completed_iff. split.
    + intros Hall. apply set_todos_id. now apply filter_all.
    + intros Heq. apply (f_equal V2.todos) in Heq. simpl in Heq.
      now apply filter_id_Forall in Heq.
  - rewrite Nat.eqb_eq, no_remaining_iff. split.
    + intros Hall. apply set_todos_id.
      rewrite <- (List.map_id (V2.todos s)) at 2.
      apply List.map_ext_in. intros t Ht.
      rewrite List.Forall_forall in Hall. rewrite <- (Hall t Ht).
      apply with_isCompleted_same.
    + intros Heq. apply (f_equal V2.todos) in Heq. simpl in Heq.
      rewrite <- Heq. apply map_with_isCompleted_true.
Qed.

(** X9.  The empty-state message is shown exactly when nothing is loading,
    the list is not empty and the filter shows none of its tasks; so never
    under the filter of all tasks, whose message is never displayed, never
    together with the welcome message, and neither message while
    loading. *)
Theorem empty_state_shown_iff (s : V2.State) :
  (Markup.shouldShowEmptyState s = true <->
   V2.isLoading s = false /\ V2.todos s <> [] /\
   forall t, In t (V2.todos s) -> V2.shown (V2.filtre s) t = false) /\
  (Markup.shouldShowEmptyState s = true -> V2.filtre s <> tous) /\
  (Markup.shouldShowEmptyState s = true -> Markup.showWelcome s = false) /\
  (V2.isLoading s = true ->
   Markup.shouldShowEmptyState s = false /\ Markup.showWelcome s = false).
Proof.
  assert (Hiff : Markup.shouldShowEmptyState s = true <->
                 V2.isLoading s = false /\ V2.todos s <> [] /\
                 forall t, In t (V2.todos s) ->
                           V2.shown (V2.filtre s) t = false).
  { unfold Markup.shouldShowEmptyState.
    rewrite !andb_true_iff, negb_true_iff, Nat.eqb_eq, Nat.ltb_lt.
    rewrite filteredTodos_length. split.
    - intros [[Hnone Hload] Hsome]. split; [assumption|]. split.
      + intros Hnil. rewrite Hnil in Hsome. simpl in Hsome. lia.
      + apply filter_nil_iff. now apply length_zero_iff_nil.
    - intros (Hload & Hsome & Hnone). split; [split; [|assumption]|].
      + apply filter_nil_iff in Hnone. now rewrite Hnone.
      + destruct (V2.todos s); [contradiction | simpl; lia]. }
  split; [exact Hiff|]. split; [|split].
  - intros Hshow Htous. apply Hiff in Hshow as (_ & Hsome & Hnone).
    rewrite Htous in Hnone. destruct (V2.todos s) as [|t l];
      [contradiction|].
    specialize (Hnone t (or_introl eq_refl)). discriminate.
  - intros Hshow. apply Hiff in Hshow as (_ & Hsome & _).
    unfold Markup.showWelcome. destruct (V2.todos s); [contradiction|].
    reflexivity.
  - intros Hload. unfold Markup.shouldShowEmptyState, Markup.showWelcome.
    rewrite Hload. simpl. now rewrite !andb_false_r.
Qed.

(** ** Titles *)

Lemma trim_start_head (s : jsstring) (c : N) (rest : jsstring) :
  trim_start s = c :: rest -> is_white_space c = false.
Proof.
  induction s as [|a s IH]; simpl; [discriminate|].
  destruct (is_white_space a) eqn:E; [assumption|].
  now intros [= <- _].
Qed.

Lemma trim_start_split (s : jsstring) :
  exists blank, s = blank ++ trim_start s /\
                Forall (fun c => is_white_space c = true) blank.
Proof.
  induction s as [|a s (blank & Hs & Hblank)]; simpl.
  - exists []. split; [reflexivity | constructor].
  - destruct (is_white_space a) eqn:E.
    + exists (a :: blank). split; [simpl; now f_equal | now constructor].
    + exists []. split; [reflexivity | constructor].
Qed.

Lemma trim_start_nil_iff (s : jsstring) :
  trim_start s = [] <-> Forall (fun c => is_white_space c = true) s.
Proof.
  induction s as [|a s IH]; simpl; [split; [constructor | reflexivity]|].
  destruct (is_white_space a) eqn:E.
  - rewrite IH. split; [now constructor | now inversion 1].
  - split; [discriminate|]. inversion 1; congruence.
Qed.

Lemma trim_start_fixed (s : jsstring) :
  (forall c rest, s = c :: rest -> is_white_space c = false) ->
  trim_start s = s.
Proof.
  destruct s as [|a s]; [reflexivity|]. intros H. simpl.
  now rewrite (H a s eq_refl).
Qed.

Lemma trim_end_split (s : jsstring) :
  exists blank, s = trim_end s ++ blank /\
                Forall (fun c => is_white_space c = true) blank.
Proof.
  unfold trim_end. destruct (trim_start_split (rev s)) as (blank & Hs & Hb).
  exists (rev blank). split.
  - rewrite <- rev_app_distr, <- Hs. now rewrite rev_involutive.
  - apply List.Forall_forall. intros c Hc. rewrite <- List.in_rev in Hc.
    rewrite List.Forall_forall in Hb. now apply Hb.
Qed.

Lemma trim_trimmed (s : jsstring) : trimmed (trim s).
Proof.
  unfold trim. split.
  - intros c rest Hc.
    destruct (trim_end_split (trim_start s)) as (blank & Hs & _).
    rewrite Hc in Hs. simpl in Hs. now apply trim_start_head in Hs.
  - intros c front Hc. unfold trim_end in Hc.
    apply (f_equal (@rev N)) in Hc.
    rewrite rev_involutive, rev_app_distr in Hc. simpl in Hc.
    now apply trim_start_head in Hc.
Qed.

Lemma trim_fixed (s : jsstring) : trimmed s -> trim s = s.
Proof.
  intros [Hhead Hlast]. unfold trim. rewrite (trim_start_fixed s Hhead).
  unfold trim_end. rewrite trim_start_fixed; [apply rev_involutive|].
  intros c rest Hc. apply (Hlast c (rev rest)).
  rewrite <- (rev_involutive s), Hc. reflexivity.
Qed.

Lemma trim_nil_iff (s : jsstring) :
  trim s = [] <-> Forall (fun c => is_white_space c = true) s.
Proof.
  unfold trim, trim_end. split.
  - intros H. apply (f_equal (@rev N)) in H. rewrite rev_involutive in H.
    simpl in H. apply trim_start_nil_iff in H.
    destruct (trim_start_split s) as (blank & Hs & Hb).
    rewrite Hs. apply Forall_app. split; [assumption|].
    apply List.Forall_forall. intros c Hc. rewrite List.Forall_forall in H.
    apply H. now apply -> List.in_rev.
  - intros H. apply trim_start_nil_iff in H. now rewrite H.
Qed.

Lemma trim_split (s : jsstring) :
  exists before after,
    s = before ++ trim s ++ after /\
    Forall (fun c => is_white_space c = true) before /\
    Forall (fun c => is_white_space c = true) after.
Proof.
  destruct (trim_start_split s) as (before & Hs & Hbefore).
  destruct (trim_end_split (trim_start s)) as (after & Ht & Hafter).
  exists before, after. unfold trim. now rewrite <- Ht.
Qed.

(** X10.  [trim] takes white space, and only white space, off both ends:
    what it returns has white space at neither end, and the string is that
    with white space before and after.  It leaves a string with white
    space at neither end as it is (so it is idempotent), and it returns
    the empty string exactly for a string of white space only.  Hence
    [ajouterTodo] ignores an input of white space only, and the title of a
    task it adds is the trimmed input, never empty and with white space at
    neither end. *)
Theorem ajouterTodo_titles_trimmed (props : TodoListProps) (clock : Clock)
  (s : V2.State) :
  (forall str,
     trimmed (trim str) /\
     (exists before after,
        str = before ++ trim str ++ after /\
        Forall (fun c => is_white_space c = true) before /\
        Forall (fun c => is_white_space c = true) after) /\
     (trimmed str -> trim str = str) /\
     trim (trim str) = trim str /\
     (trim str = [] <->
      Forall (fun c => is_white_space c = true) str)) /\
  (Forall (fun c => is_white_space c = true) (V2.inputValue s) ->
   V2.ajouterTodo props clock s = (s, None)) /\
  (forall t,
     V2.todos (fst (V2.ajouterTodo props clock s)) = V2.todos s ++ [t] ->
     titre t = trim (V2.inputValue s) /\
     titre t <> [] /\ trimmed (titre t)).
Proof.
  split; [|split].
  - intros str. split; [apply trim_trimmed|].
    split; [apply trim_split|]. split; [apply trim_fixed|].
    split; [apply trim_fixed, trim_trimmed | apply trim_nil_iff].
  - intros Hblank. apply trim_nil_iff in Hblank.
    unfold V2.ajouterTodo. now rewrite Hblank.
  - intros t. unfold V2.ajouterTodo.
    destruct (non_empty _) eqn:Hinput.
    + destruct (_ >=? _); simpl.
      * intros H. apply (f_equal (@length Task)) in H.
        rewrite length_app in H. simpl in H. lia.
      * intros H. apply app_inj_tail in H as [_ <-]. simpl.
        split; [reflexivity|].
        split; [now apply non_empty_true | apply trim_trimmed].
    + simpl. intros H. apply (f_equal (@length Task)) in H.
      rewrite length_app in H. simpl in H. lia.
Qed.

(** ** How the operations compose *)

Lemma filter_map_swap {A B} (f : B -> bool) (g : A -> B) (l : list A) :
  List.filter f (List.map g l)
  = List.map g (List.filter (fun a => f (g a)) l).
Proof.
  induction l as [|a l IH]; simpl; [reflexivity|].
  destruct (f (g a)); simpl; now rewrite IH.
Qed.

Lemma filter_filter_comm {A} (f g : A -> bool) (l : list A) :
  List.filter f (List.filter g l) = List.filter g (List.filter f l).
Proof.
  induction l as [|a l IH]; simpl; [reflexivity|].
  destruct (f a) eqn:Ef, (g a) eqn:Eg; simpl; rewrite ?Ef, ?Eg, IH;
    reflexivity.
Qed.

Lemma filter_fresh_id `{Runtime} (n : Z) (l : list Task) :
  ~ In n (ids l) ->
  List.filter (fun todo => V2.loose_neq (id todo) (IdNumber n)) l = l.
Proof.
  intros Hfresh. apply filter_all. apply List.Forall_forall. intros t Ht.
  simpl. apply negb_true_iff, Z.eqb_neq. intros E. apply Hfresh.
  unfold ids. rewrite <- E. now apply List.in_map.
Qed.

(** X11.  Adding a task and then deleting it by its identifier gives back
    the list as it was, provided the clock value that became its
    identifier was not the identifier of another task. *)
Theorem ajouterTodo_then_supprimerTask `{Runtime} (props : TodoListProps)
  (clock : Clock) (s : V2.State) :
  ~ In (Date_now clock) (ids (V2.todos s)) ->
  V2.todos (V2.supprimerTask (IdNumber (Date_now clock))
              (fst (V2.ajouterTodo props clock s)))
  = V2.todos s.
Proof.
  intros Hfresh. unfold V2.ajouterTodo.
  destruct (non_empty _); [destruct (_ >=? _)|]; simpl;
    try now apply filter_fresh_id.
  rewrite List.filter_app. simpl. rewrite Z.eqb_refl. simpl.
  rewrite app_nil_r. now apply filter_fresh_id.
Qed.

Lemma ajouterTodo_then_supprimerTask_witness :
  V2.todos (@V2.supprimerTask decimal_runtime (IdNumber (Date_now noon))
              (fst (V2.ajouterTodo default_props noon
                      (idle three_tasks "Acheter du lait"))))
  = three_tasks.
Proof.
  apply (@ajouterTodo_then_supprimerTask decimal_runtime default_props noon
           (idle three_tasks "Acheter du lait")).
  simpl. intuition lia.
Defined.

(** X12.  Toggles and deletions can be done in any order: two toggles
    commute, two deletions commute, a toggle commutes with a deletion, and
    clearing the completed tasks commutes with a deletion. *)
Theorem toggle_and_delete_commute `{Runtime} (i j : Z) (a b : Ident)
  (s : V2.State) :
  V2.toggleTask i (V2.toggleTask j s) = V2.toggleTask j (V2.toggleTask i s) /\
  V2.supprimerTask a (V2.supprimerTask b s)
  = V2.supprimerTask b (V2.supprimerTask a s) /\
  V2.toggleTask i (V2.supprimerTask a s)
  = V2.supprimerTask a (V2.toggleTask i s) /\
  V2.clearCompletedTodos (V2.supprimerTask a s)
  = V2.supprimerTask a (V2.clearCompletedTodos s).
Proof.
  destruct s as [l v f b0 e d p].
  unfold V2.toggleTask, V2.supprimerTask, V2.clearCompletedTodos,
    V2.set_todos; simpl.
  split; [|split; [|split]]; f_equal.
  - rewrite !List.map_map. apply List.map_ext. intros t.
    destruct (id t =? i) eqn:Ei, (id t =? j) eqn:Ej; simpl;
      rewrite ?Ei, ?Ej; reflexivity.
  - apply filter_filter_comm.
  - rewrite filter_map_swap. f_equal. apply List.filter_ext. intros t.
    now destruct (id t =? i).
  - apply filter_filter_comm.
Qed.

(** ** Counters *)

Lemma remainingTasks_app (l1 l2 : list Task) :
  remainingTasks (l1 ++ l2) = (remainingTasks l1 + remainingTasks l2)%nat.
Proof. unfold remainingTasks. now rewrite List.filter_app, length_app. Qed.

Lemma toggle_other_ids (i : Z) (l : list Task) :
  ~ In i (ids l) ->
  List.map (fun todo =>
              if id todo =? i
              then with_isCompleted (negb (isCompleted todo)) todo
              else todo) l = l.
Proof.
  intros Hnone. rewrite <- (List.map_id l) at 2.
  apply List.map_ext_in. intros t Ht.
  destruct (Z.eqb_spec (id t) i) as [E|E]; [|reflexivity].
  exfalso. apply Hnone. unfold ids. rewrite <- E. now apply List.in_map.
Qed.

(** X13.  With pairwise distinct identifiers, toggling the identifier of a
    task changes the number of remaining tasks by exactly one, down when
    the task was active and up when it was completed, and keeps the number
    of tasks; deleting it removes exactly one task. *)
Theorem toggle_and_delete_count `{Runtime} (t : Task) (s : V2.State) :
  NoDup (ids (V2.todos s)) -> In t (V2.todos s) ->
  length (V2.todos (V2.toggleTask (id t) s)) = length (V2.todos s) /\
  (isCompleted t = false ->
   S (remainingTasks (V2.todos (V2.toggleTask (id t) s)))
   = remainingTasks (V2.todos s)) /\
  (isCompleted t = true ->
   remainingTasks (V2.todos (V2.toggleTask (id t) s))
   = S (remainingTasks (V2.todos s))) /\
  S (length (V2.todos (V2.supprimerTask (IdNumber (id t)) s)))
  = length (V2.todos s).
Proof.
  intros Hnd Hin. apply List.in_split in Hin as (l1 & l2 & Hl).
  simpl. rewrite Hl in *. clear Hl.
  unfold ids in Hnd. rewrite List.map_app in Hnd. simpl in Hnd.
  apply NoDup_app in Hnd as (_ & Hdisj & Hnd2).
  apply NoDup_cons in Hnd2 as [Hnot2 _].
  assert (H1 : ~ In (id t) (ids l1)).
  { intros Hin. apply (Hdisj (id t)).
    - now apply list_elem_of_In.
    - left. }
  assert (H2 : ~ In (id t) (ids l2))
    by (intros Hin; apply Hnot2; now apply list_elem_of_In).
  split; [now rewrite List.length_map|].
  rewrite List.map_app. simpl. rewrite Z.eqb_refl.
  rewrite (toggle_other_ids _ _ H1), (toggle_other_ids _ _ H2).
  rewrite !remainingTasks_app.
  change (?x :: l2) with ([x] ++ l2). rewrite !remainingTasks_app.
  unfold remainingTasks at 2 5 8 11. simpl.
  split; [intros ->; simpl; lia|]. split; [intros ->; simpl; lia|].
  rewrite List.filter_app. simpl. rewrite Z.eqb_refl. simpl.
  rewrite (filter_fresh_id _ _ H1), (filter_fresh_id _ _ H2).
  rewrite !length_app. simpl. lia.
Qed.

Lemma toggle_and_delete_count_witness :
  S (remainingTasks
       (V2.todos (V2.toggleTask 1 (idle three_tasks ""))))
  = remainingTasks three_tasks.
Proof.
  apply (@toggle_and_delete_count decimal_runtime (task 1 false low)
           (idle three_tasks "")).
  - simpl. repeat constructor; rewrite list_elem_of_In; simpl; intuition lia.
  - simpl. tauto.
  - reflexivity.
Defined.

(** ** The limit *)

Lemma step_within_limit `{Runtime} (props : TodoListProps) (s : V2.State)
  (e : V2.Event) :
  (forall clock o, e <> V2.FetchSettled clock o) ->
  Z.of_nat (length (V2.todos (V2.step props s e)))
  <= Z.max (Z.of_nat (length (V2.todos s))) (maxTodos props).
Proof.
  intros Hnot. destruct e as [v|p|clock|i|i| | |f|clock o| ]; simpl;
    try lia.
  - unfold V2.ajouterTodo. destruct (non_empty _); [|simpl; lia].
    destruct (Z.geb_spec (Z.of_nat (length (V2.todos s))) (maxTodos props));
      simpl; [lia|].
    rewrite length_app. simpl. lia.
  - rewrite List.length_map. lia.
  - pose proof (List.filter_length_le
                  (fun todo => V2.loose_neq (id todo) i) (V2.todos s)). lia.
  - pose proof (List.filter_length_le
                  (fun todo => negb (isCompleted todo)) (V2.todos s)). lia.
  - rewrite List.length_map. lia.
  - now contradiction (Hnot clock o).
Qed.

(** X14.  Whatever the user does, as long as no request settles the list
    never gets longer than the larger of [maxTodos] and its length at the
    start: adding cannot take it past the limit. *)
Theorem user_events_within_limit `{Runtime} (props : TodoListProps)
  (events : list V2.Event) (s : V2.State) :
  still_pending events ->
  Z.of_nat (length (V2.todos (V2.run props s events)))
  <= Z.max (Z.of_nat (length (V2.todos s))) (maxTodos props).
Proof.
  revert s. induction events as [|e rest IH]; intros s Hpending; simpl;
    [lia|].
  assert (Hrest : still_pending rest).
  { intros clock o Hin. apply (Hpending clock o). now right. }
  assert (He : forall clock o, e <> V2.FetchSettled clock o).
  { intros clock o ->. apply (Hpending clock o). now left. }
  pose proof (IH (V2.step props s e) Hrest).
  pose proof (step_within_limit props s e He). lia.
Qed.

Lemma user_events_within_limit_witness :
  Z.of_nat (length (V2.todos
    (@V2.run decimal_runtime
       {| initialTasks := []; maxTodos := 2; enablePriority := false |}
       (idle [] "")
       [V2.Change (lit "a"); V2.Ajouter noon;
        V2.Change (lit "b"); V2.Ajouter noon;
        V2.Change (lit "c"); V2.Ajouter noon])))
  <= Z.max (Z.of_nat (length (V2.todos (idle [] "")))) 2.
Proof.
  apply (@user_events_within_limit decimal_runtime
           {| initialTasks := []; maxTodos := 2; enablePriority := false |}).
  intros clock o Hin. simpl in Hin. intuition discriminate.
Defined.

(** ** The loader *)

Lemma map_items_fields (clock : Clock)
  (items : list (option Api.ApiResponse)) :
  forall index tasks,
    V2.map_items clock index items = Some tasks ->
    exists records,
      items = List.map Some records /\
      ids tasks = List.map Api.id records /\
      List.map titre tasks = List.map Api.title records /\
      List.map isCompleted tasks = List.map Api.completed records /\
      List.map userId tasks
      = List.map (fun r => Some (Api.userId r)) records /\
      List.map createdAt tasks
      = List.map (fun k => Some (new_Date clock k))
          (seq index (length records)).
Proof.
  induction items as [|item rest IH]; intros index tasks Hmap; simpl in Hmap.
  - injection Hmap as <-. exists []. repeat split.
  - destruct item as [r|]; simpl in Hmap; [|discriminate].
    destruct (V2.map_items clock (S index) rest) as [ts|] eqn:Hrest;
      [|discriminate].
    injection Hmap as <-.
    destruct (IH _ _ Hrest) as (records & -> & Hid & Ht & Hc & Hu & Hd).
    exists (r :: records). simpl. unfold ids in *. simpl.
    rewrite Hid, Ht, Hc, Hu, Hd. repeat split.
Qed.

Lemma map_items_records (clock : Clock) (records : list Api.ApiResponse) :
  forall index,
    exists tasks,
      V2.map_items clock index (List.map Some records) = Some tasks.
Proof.
  induction records as [|r records IH]; intros index; simpl.
  - now exists [].
  - destruct (IH (S index)) as (ts & ->). eexists. reflexivity.
Qed.

(** X15.  The loader succeeds exactly when the body is an array without a
    [null] element, and then the tasks it makes carry, record by record and
    in the order of the response, the [id], the [title] (as [titre]), the
    [completed] flag (as [isCompleted]) and the [userId] of the records,
    and a creation date. *)
Theorem loader_maps_fields (clock : Clock) (o : FetchOutcome) :
  (forall tasks,
     V2.apiTasks clock o = Some tasks ->
     exists records,
       o = Parsed (Items (List.map Some records)) /\
       ids tasks = List.map Api.id records /\
       List.map titre tasks = List.map Api.title records /\
       List.map isCompleted tasks = List.map Api.completed records /\
       List.map userId tasks
       = List.map (fun r => Some (Api.userId r)) records /\
       List.map createdAt tasks
       = List.map (fun k => Some (new_Date clock k))
           (seq 0 (length records))) /\
  (forall records,
     o = Parsed (Items (List.map Some records)) ->
     exists tasks, V2.apiTasks clock o = Some tasks).
Proof.
  split.
  - intros tasks Hok. destruct o as [| |[|items]]; try discriminate.
    simpl in Hok. apply map_items_fields in Hok as (records & -> & Hrest).
    now exists records.
  - intros records ->. simpl. apply map_items_records.
Qed.

(** [index_priority] repeats every six positions. *)
Lemma index_priority_period (k : nat) :
  V2.index_priority (k + 6) = V2.index_priority k.
Proof.
  unfold V2.index_priority.
  replace ((k + 6) mod 3)%nat with (k mod 3)%nat.
  - replace ((k + 6) mod 2)%nat with (k mod 2)%nat; [reflexivity|].
    change 6%nat with (3 * 2)%nat. now rewrite Nat.Div0.mod_add.
  - change 6%nat with (2 * 3)%nat. now rewrite Nat.Div0.mod_add.
Qed.

(** ** The loading flag *)

(** X16.  In the second version no handler of the user changes
    [isLoading]; the loader sets it when a request starts and clears it
    when the request settles, whatever the outcome, and settling changes
    neither the input, the filter nor the selected priority. *)
Theorem isLoading_only_by_loader `{Runtime} (props : TodoListProps)
  (s : V2.State) :
  (forall e, (forall clock o, e <> V2.FetchSettled clock o) ->
             V2.isLoading (V2.step props s e) = V2.isLoading s) /\
  V2.isLoading (V2.fetchTodos_begin s) = true /\
  (forall clock o,
     V2.isLoading (fst (V2.fetchTodos_end props clock o s)) = false /\
     V2.inputValue (fst (V2.fetchTodos_end props clock o s))
     = V2.inputValue s /\
     V2.filtre (fst (V2.fetchTodos_end props clock o s)) = V2.filtre s /\
     V2.selectedPriority (fst (V2.fetchTodos_end props clock o s))
     = V2.selectedPriority s).
Proof.
  split; [|split; [reflexivity|]].
  - intros e Hnot. destruct e as [v|p|clock|i|i| | |f|clock o| ]; simpl;
      try reflexivity.
    + unfold V2.ajouterTodo. destruct (non_empty _); [|reflexivity].
      now destruct (_ >=? _).
    + now contradiction (Hnot clock o).
  - intros clock o. unfold V2.fetchTodos_end.
    destruct (V2.apiTasks clock o); repeat split.
Qed.

(** X17.  In the first version nothing but a successful response clears
    [isLoading]: no handler changes it and a failed request leaves it set,
    so after a failed request it stays set, and the input and the add
    button stay disabled, whatever happens next. *)
Theorem V1_isLoading_stuck_after_failure (props : TodoListProps)
  (o : FetchOutcome) (events : list V1Run.Event) :
  V1.apiTasks o = None ->
  V1.isLoading
    (V1Run.run (fst (V1.fetch_settled o (V1.mount props))) events) = true.
Proof.
  intros Hfail. unfold V1.fetch_settled. rewrite Hfail. simpl fst.
  assert (Hkeep : forall s,
             V1.isLoading (V1Run.run s events) = V1.isLoading s).
  { induction events as [|e rest IH]; intros s; simpl; [reflexivity|].
    rewrite IH. destruct e; simpl; try reflexivity.
    unfold V1.ajouterTodo. now destruct (non_empty _). }
  now rewrite Hkeep.
Qed.

Lemma V1_isLoading_stuck_after_failure_witness :
  V1.isLoading
    (V1Run.run (fst (V1.fetch_settled NetworkError (V1.mount App1_props)))
       [V1Run.Toggle 1; V1Run.ClearCompleted; V1Run.ChangerFiltre active])
  = true.
Proof.
  apply (V1_isLoading_stuck_after_failure App1_props NetworkError).
  reflexivity.
Defined.

(** X18.  A later render with other props never changes the task list,
    even when [initialTasks] is another list; it changes nothing at all
    when the new [initialTasks] has the length of the old one, and starts
    a request exactly when that length has changed to zero. *)
Theorem rerender_keeps_todos (old new : TodoListProps) (s : V2.State) :
  V2.todos (V2.rerender old new s) = V2.todos s /\
  (length (initialTasks new) = length (initialTasks old) ->
   V2.rerender old new s = s) /\
  (V2.isLoading s = false ->
   (V2.isLoading (V2.rerender old new s) = true <->
    initialTasks new = [] /\ initialTasks old <> [])).
Proof.
  unfold V2.rerender. split; [|split].
  - destruct (_ =? _)%nat; [reflexivity|]. now destruct (_ =? _)%nat.
  - intros ->. now rewrite Nat.eqb_refl.
  - intros Hidle.
    destruct (initialTasks new) as [|t l], (initialTasks old) as [|t' l'];
      simpl.
    + rewrite Hidle. split; [discriminate | now intros [_ ?]].
    + split; [intros _; split; [reflexivity | discriminate] | reflexivity].
    + rewrite Hidle. split; [discriminate | now intros [? _]].
    + destruct (_ =? _)%nat; rewrite Hidle;
        (split; [discriminate | now intros [? _]]).
Qed.

(** ** The progress text *)

Lemma lit_inj (a b : string) : lit a = lit b -> a = b.
Proof.
  unfold lit. intros H.
  rewrite <- (string_of_list_ascii_of_string a),
          <- (string_of_list_ascii_of_string b).
  f_equal. revert H.
  generalize (list_ascii_of_string a) (list_ascii_of_string b).
  intros l. induction l as [|x l IH]; intros [|y l']; simpl;
    try discriminate; [reflexivity|].
  intros [= Hxy Hl]. f_equal; [|now apply IH].
  rewrite <- (ascii_N_embedding x), <- (ascii_N_embedding y). now f_equal.
Qed.

Lemma to_uint_nonnil (n : N) : N.to_uint n <> Decimal.Nil.
Proof.
  destruct n; simpl; [discriminate|].
  apply DecimalPos.Unsigned.to_uint_nonnil.
Qed.

Lemma decimal_of_string (n : N) :
  NilZero.uint_of_string (NilZero.string_of_uint (N.to_uint n))
  = Some (N.to_uint n).
Proof. apply NilZero.usu, to_uint_nonnil. Qed.

(** The decimal writing determines the number. *)
Lemma decimal_inj (a b : N) : decimal a = decimal b -> a = b.
Proof.
  unfold decimal. intros H%lit_inj.
  apply DecimalN.Unsigned.to_uint_inj.
  pose proof (decimal_of_string a) as Ha. rewrite H in Ha.
  rewrite decimal_of_string in Ha. congruence.
Qed.

Lemma decimal_not_NaN (n : N) : decimal n ++ lit "%" <> lit "NaN%".
Proof.
  change (lit "NaN%") with (lit "NaN" ++ lit "%").
  intros H%app_inv_tail. unfold decimal in H. apply lit_inj in H.
  pose proof (decimal_of_string n) as Hn. rewrite H in Hn. discriminate.
Qed.

Lemma calculerProgress_integer (todos : list Task) :
  Z.of_nat (length todos) < 2 ^ 32 -> todos <> [] ->
  exists r : Z,
    V2.calculerProgress todos = decimal (Z.to_N r) ++ lit "%" /\
    0 <= r <= 100 /\
    Z.abs (200 * completedTasks todos - 2 * r * Z.of_nat (length todos))
    <= Z.of_nat (length todos).
Proof.
  intros Hlen Hne. destruct todos as [|t l]; [contradiction|].
  unfold V2.calculerProgress. simpl Nat.eqb. cbv iota.
  pose proof (remainingTasks_le (t :: l)) as Hrem.
  destruct (Binary64Facts.percentage_nearest (completedTasks (t :: l))
              (length (t :: l))) as (r & Heq & Hr0 & Hr).
  - unfold completedTasks. lia.
  - split; [simpl length; lia | assumption].
  - exists r. split; [assumption|]. split; [|assumption].
    unfold completedTasks in *. simpl length in *. nia.
Qed.

(** X19.  For a list of fewer than 2^32 tasks the progress is the decimal
    writing of an integer from 0 to 100 followed by ["%"], so the width of
    the progress bar is always a percentage from 0% to 100%.  For a list of
    fewer than 200 tasks that is not empty, it is ["100%"] exactly when
    every task is completed and ["0%"] exactly when none is. *)
Theorem calculerProgress_range (todos : list Task) :
  Z.of_nat (length todos) < 2 ^ 32 ->
  (exists r : Z, 0 <= r <= 100 /\
                 V2.calculerProgress todos = decimal (Z.to_N r) ++ lit "%") /\
  (todos <> [] -> (length todos < 200)%nat ->
   (V2.calculerProgress todos = lit "100%" <->
    Forall (fun t => isCompleted t = true) todos) /\
   (V2.calculerProgress todos = lit "0%" <->
    Forall (fun t => isCompleted t = false) todos)).
Proof.
  intros Hlen. split.
  - destruct todos as [|t l]; [exists 0; split; [lia | reflexivity]|].
    destruct (calculerProgress_integer (t :: l) Hlen) as (r & Heq & Hr & _);
      [discriminate|].
    now exists r.
  - intros Hne Hsmall.
    destruct (calculerProgress_integer todos Hlen Hne) as (r & Heq & Hr & Hn).
    pose proof (remainingTasks_le todos) as Hrem.
    assert (Hpos : (0 < length todos)%nat)
      by (destruct todos; [contradiction | simpl; lia]).
    rewrite Heq.
    assert (Htext : forall k : Z,
               0 <= k ->
               (decimal (Z.to_N r) ++ lit "%" = decimal (Z.to_N k) ++ lit "%"
                <-> r = k)).
    { intros k Hk. split; [|now intros ->].
      intros H%app_inv_tail%decimal_inj. lia. }
    split.
    + change (lit "100%") with (decimal (Z.to_N 100) ++ lit "%").
      rewrite Htext by lia. rewrite <- no_remaining_iff.
      unfold completedTasks in Hn. split; [intros ->; nia | intros Hz].
      rewrite Hz in Hn. nia.
    + change (lit "0%") with (decimal (Z.to_N 0) ++ lit "%").
      rewrite Htext by lia.
      assert (Hnone : completedTasks todos = 0 <->
                      Forall (fun t => isCompleted t = false) todos).
      { rewrite no_completed_iff. apply Forall_iff. intros t.
        apply negb_true_iff. }
      rewrite <- Hnone. unfold completedTasks in *.
      split; [intros ->; nia | intros Hz]. rewrite Hz in Hn. nia.
Qed.

Lemma calculerProgress_range_witness :
  (exists r : Z,
     0 <= r <= 100 /\
     V2.calculerProgress three_tasks = decimal (Z.to_N r) ++ lit "%") /\
  (V2.calculerProgress three_tasks = lit "100%" <->
   Forall (fun t => isCompleted t = true) three_tasks) /\
  (V2.calculerProgress three_tasks = lit "0%" <->
   Forall (fun t => isCompleted t = false) three_tasks).
Proof.
  destruct (calculerProgress_range three_tasks) as [Hrange Hends];
    [simpl; lia|].
  split; [exact Hrange|].
  apply Hends; [discriminate | simpl; lia].
Defined.

(** X20.  The progress of the first version is that of the second for
    every list that is not empty, and ["NaN%"] for the empty list and for
    no other list of fewer than 2^32 tasks. *)
Theorem V1_calculerProgress_NaN_iff_empty (todos : list Task) :
  Z.of_nat (length todos) < 2 ^ 32 ->
  (todos <> [] -> V1.calculerProgress todos = V2.calculerProgress todos) /\
  (V1.calculerProgress todos = lit "NaN%" <-> todos = []).
Proof.
  intros Hlen.
  assert (Hsame : todos <> [] ->
                  V1.calculerProgress todos = V2.calculerProgress todos).
  { intros Hne. destruct todos; [contradiction | reflexivity]. }
  split; [assumption|]. split; [|now intros ->].
  destruct todos as [|t l]; [reflexivity|]. intros HNaN. exfalso.
  rewrite Hsame in HNaN by discriminate.
  destruct (calculerProgress_integer (t :: l) Hlen) as (r & Heq & _);
    [discriminate|].
  rewrite Heq in HNaN. now apply decimal_not_NaN in HNaN.
Qed.

Lemma V1_calculerProgress_NaN_iff_empty_witness :
  V1.calculerProgress three_tasks = V2.calculerProgress three_tasks.
Proof.
  apply (V1_calculerProgress_NaN_iff_empty three_tasks).
  - simpl. lia.
  - discriminate.
Defined.

(** ** The order of the views *)

(** X21.  The views keep one order: the view of a filter is the view of
    all the tasks with the lines the filter does not show left out, so
    changing the filter never changes the order of two tasks shown by
    both; and a view is in view order already, taking the view of a view
    under the same filter gives the same lines. *)
Theorem filteredTodos_one_order (todos : list Task) (f : FilterType) :
  V2.filteredTodos todos f
  = List.filter (V2.shown f) (V2.filteredTodos todos tous) /\
  V2.filteredTodos (V2.filteredTodos todos f) f = V2.filteredTodos todos f.
Proof.
  assert (Hfirst : forall l,
             V2.filteredTodos l f
             = List.filter (V2.shown f) (V2.filteredTodos l tous)).
  { intros l. unfold V2.filteredTodos.
    rewrite !sort_by_priority_partition, List.filter_app.
    rewrite (filter_all (V2.shown tous) l) by now apply Forall_forall.
    f_equal; apply filter_filter_comm. }
  split; [apply Hfirst|].
  assert (Hshown : List.filter (V2.shown f) (V2.filteredTodos todos f)
                   = V2.filteredTodos todos f)
    by (rewrite Hfirst; apply filter_filter_same).
  unfold V2.filteredTodos at 1. rewrite Hshown.
  unfold V2.filteredTodos. symmetry.
  rewrite (sort_by_priority_partition (List.filter (V2.shown f) todos)).
  eapply sort_by_priority_unique;
    [reflexivity | apply Forall_filter_true | apply Forall_filter_false
    | reflexivity | reflexivity].
Qed.

(** ** The priorities *)

Lemma priority_counts (l : list Task) :
  (Markup.priority_count high l + Markup.priority_count medium l
   + Markup.priority_count low l
   = length (List.filter
               (fun t => match priority t with Some _ => true | None => false end)
               l))%nat.
Proof.
  unfold Markup.priority_count.
  induction l as [|t l IH]; [reflexivity|].
  destruct t as [i title done user date [[| |]|]];
    cbn [List.filter Markup.has_priority priority length]; lia.
Qed.

Lemma map_items_priority (clock : Clock)
  (items : list (option Api.ApiResponse)) :
  forall index tasks,
    V2.map_items clock index items = Some tasks ->
    Forall (fun t => priority t <> None) tasks.
Proof.
  induction items as [|item rest IH]; intros index tasks Hmap; simpl in Hmap.
  - injection Hmap as <-. constructor.
  - destruct item as [r|]; simpl in Hmap; [|discriminate].
    destruct (V2.map_items clock (S index) rest) as [ts|] eqn:Hrest;
      [|discriminate].
    injection Hmap as <-.
    constructor; [simpl; discriminate | exact (IH _ _ Hrest)].
Qed.

Lemma Forall_filter_keeps {A} (P : A -> Prop) (f : A -> bool) (l : list A) :
  Forall P l -> Forall P (List.filter f l).
Proof.
  induction 1 as [|a l Ha _ IH]; simpl; [constructor|].
  destruct (f a); [constructor|]; assumption.
Qed.

Lemma step_keeps_priorities `{Runtime} (props : TodoListProps)
  (s : V2.State) (e : V2.Event) :
  Forall (fun t => priority t <> None) (initialTasks props) ->
  Forall (fun t => priority t <> None) (V2.todos s) ->
  Forall (fun t => priority t <> None) (V2.todos (V2.step props s e)).
Proof.
  intros Hinit Hs.
  destruct e as [v|p|clock|i|i| | |f|clock o| ]; simpl; try assumption.
  - unfold V2.ajouterTodo. destruct (non_empty _); [|assumption].
    destruct (_ >=? _); [assumption|]. simpl.
    apply Forall_app. split; [assumption|].
    constructor; [simpl; discriminate | constructor].
  - apply Forall_map. eapply Forall_impl; [exact Hs|].
    intros t Ht. simpl. now destruct (id t =? i).
  - now apply Forall_filter_keeps.
  - now apply Forall_filter_keeps.
  - apply Forall_map. eapply Forall_impl; [exact Hs|]. now intros t Ht.
  - unfold V2.fetchTodos_end.
    destruct (V2.apiTasks clock o) as [tasks|] eqn:Hok; simpl;
      [|assumption].
    apply Forall_app. split; [assumption|].
    destruct o as [| |[|items]]; try discriminate.
    now apply map_items_priority in Hok.
Qed.

Lemma run_keeps_priorities `{Runtime} (props : TodoListProps)
  (events : list V2.Event) :
  Forall (fun t => priority t <> None) (initialTasks props) ->
  forall s,
    Forall (fun t => priority t <> None) (V2.todos s) ->
    Forall (fun t => priority t <> None) (V2.todos (V2.run props s events)).
Proof.
  intros Hinit. induction events as [|e rest IH]; intros s Hs; simpl;
    [assumption|].
  apply IH. now apply step_keeps_priorities.
Qed.

(** X22.  Every task the component makes has a priority, and no handler
    takes one away: when the tasks of [initialTasks] have one, every task
    of the list has one after any sequence of events, and the three counts
    of the statistics add up to the number of tasks.  In general the three
    counts add up to the number of tasks that have a priority. *)
Theorem statistics_add_up `{Runtime} (props : TodoListProps)
  (events : list V2.Event) (s : V2.State) :
  Forall (fun t => priority t <> None) (initialTasks props) ->
  Forall (fun t => priority t <> None) (V2.todos s) ->
  Forall (fun t => priority t <> None)
    (V2.todos (V2.run props s events)) /\
  (Markup.priority_count high (V2.todos (V2.run props s events))
   + Markup.priority_count medium (V2.todos (V2.run props s events))
   + Markup.priority_count low (V2.todos (V2.run props s events))
   = length (V2.todos (V2.run props s events)))%nat.
Proof.
  intros Hinit Hs.
  assert (Hall : Forall (fun t => priority t <> None)
                   (V2.todos (V2.run props s events)))
    by now apply run_keeps_priorities.
  split; [assumption|].
  rewrite priority_counts. f_equal. apply filter_all.
  eapply Forall_impl; [exact Hall|].
  intros t Ht. simpl in *.
  destruct (priority t); [reflexivity | now contradiction Ht].
Qed.

Lemma statistics_add_up_witness :
  (Markup.priority_count high
     (V2.todos (@V2.run decimal_runtime seeded_props (idle three_tasks "milk")
                  [V2.Ajouter noon; V2.Toggle 1; V2.ClearCompleted]))
   + Markup.priority_count medium
       (V2.todos (@V2.run decimal_runtime seeded_props
                    (idle three_tasks "milk")
                    [V2.Ajouter noon; V2.Toggle 1; V2.ClearCompleted]))
   + Markup.priority_count low
       (V2.todos (@V2.run decimal_runtime seeded_props
                    (idle three_tasks "milk")
                    [V2.Ajouter noon; V2.Toggle 1; V2.ClearCompleted]))
   = length
       (V2.todos (@V2.run decimal_runtime seeded_props
                    (idle three_tasks "milk")
                    [V2.Ajouter noon; V2.Toggle 1; V2.ClearCompleted])))%nat.
Proof.
  apply (@statistics_add_up decimal_runtime seeded_props
           [V2.Ajouter noon; V2.Toggle 1; V2.ClearCompleted]
           (idle three_tasks "milk")).
  - simpl. repeat constructor; discriminate.
  - simpl. repeat constructor; discriminate.
Defined.

(** X24.  The colour of a priority tells the priority: the three
    priorities and the absence of one have four different colours.  When
    the tasks of [initialTasks] have a priority, no line of any view has
    the grey of the default branch as its border colour, after any sequence
    of events. *)
Theorem getPriorityColor_tells_priority `{Runtime} (props : TodoListProps)
  (events : list V2.Event) (s : V2.State) :
  (forall p q, Markup.getPriorityColor p = Markup.getPriorityColor q ->
               p = q) /\
  (Forall (fun t => priority t <> None) (initialTasks props) ->
   Forall (fun t => priority t <> None) (V2.todos s) ->
   forall f t,
     In t (V2.filteredTodos (V2.todos (V2.run props s events)) f) ->
     Markup.getPriorityColor (priority t) <> lit "#cccccc").
Proof.
  split.
  - intros [[| |]|] [[| |]|]; try reflexivity; discriminate.
  - intros Hinit Hs f t Hin.
    pose proof (run_keeps_priorities props events Hinit s Hs) as Hall.
    assert (Hmem : In t (V2.todos (V2.run props s events))).
    { apply list_elem_of_In in Hin. unfold V2.filteredTodos in Hin.
      rewrite sort_perm in Hin. apply list_elem_of_In in Hin.
      now apply List.filter_In in Hin as [Hin _]. }
    rewrite List.Forall_forall in Hall. specialize (Hall t Hmem).
    destruct (priority t) as [[| |]|]; [discriminate.. | contradiction].
Qed.

(** ** The warning of the limit indicator *)

Module LimitFacts.

Import Binary64 Binary64Facts.

Local Open Scope R_scope.

Lemma bpow_le (a b : Z) : (a <= b)%Z -> bpow a <= bpow b.
Proof.
  intros Hab. replace b with (a + (b - a))%Z by lia.
  rewrite bpow_add, (bpow_IZR (b - a)) by lia.
  assert (H1 : (1 <= 2 ^ (b - a))%Z)
    by (apply (Z.pow_le_mono_r 2 0); lia).
  apply IZR_le in H1. pose proof (bpow_pos a). nra.
Qed.

Lemma mantissa_bounds (m : positive) :
  Z.pos (digits2_pos m) = 53%Z ->
  4503599627370496 <= IZR (Z.pos m) < 9007199254740992.
Proof.
  intros Hd. pose proof (digits2_pos_bounds m) as [Hlo Hhi].
  rewrite Hd in Hlo, Hhi.
  change (2 ^ (53 - 1))%Z with 4503599627370496%Z in Hlo.
  change (2 ^ 53)%Z with 9007199254740992%Z in Hhi.
  split; [apply IZR_le | apply IZR_lt]; assumption.
Qed.

(** The order of two positive Numbers with full mantissas is the order
    of their values. *)
Lemma SFltb_finite (m1 m2 : positive) (e1 e2 : Z) :
  Z.pos (digits2_pos m1) = 53%Z -> Z.pos (digits2_pos m2) = 53%Z ->
  SFltb (S754_finite false m1 e1) (S754_finite false m2 e2) = true <->
  IZR (Z.pos m1) * bpow e1 < IZR (Z.pos m2) * bpow e2.
Proof.
  intros Hd1%mantissa_bounds Hd2%mantissa_bounds.
  unfold SFltb, SFcompare.
  pose proof (bpow_pos e1) as Hp1. pose proof (bpow_pos e2) as Hp2.
  destruct (Z.compare_spec e1 e2) as [->|Hlt|Hgt].
  - rewrite Pos.compare_cont_spec. simpl Pos.switch_Eq.
    destruct (Pos.compare_spec m1 m2) as [->|Hm|Hm].
    + split; [discriminate | lra].
    + split; [intros _ | reflexivity].
      apply Rmult_lt_compat_r; [assumption | now apply IZR_lt].
    + split; [discriminate|]. intros H. exfalso.
      apply Rmult_lt_reg_r in H; [|assumption].
      apply lt_IZR in H. lia.
  - split; [intros _ | reflexivity].
    assert (Hb : bpow (e1 + 1) <= bpow e2) by (apply bpow_le; lia).
    rewrite bpow_add in Hb.
    replace (bpow 1) with 2 in Hb by (unfold bpow; simpl; ring). nra.
  - split; [discriminate|]. intros H. exfalso.
    assert (Hb : bpow (e2 + 1) <= bpow e1) by (apply bpow_le; lia).
    rewrite bpow_add in Hb.
    replace (bpow 1) with 2 in Hb by (unfold bpow; simpl; ring). nra.
Qed.

(** The product of two positive Numbers with full mantissas, with the
    error measured in units of the last place. *)
Lemma mul_ulp (m1 m2 : positive) (e1 e2 : Z) :
  Z.pos (digits2_pos m1) = 53%Z -> Z.pos (digits2_pos m2) = 53%Z ->
  (-200 <= e1 <= 200)%Z -> (-200 <= e2 <= 200)%Z ->
  exists (m : positive) (e k : Z),
    mul (S754_finite false m1 e1) (S754_finite false m2 e2)
      = S754_finite false m e /\
    Z.pos (digits2_pos m) = 53%Z /\
    (52 <= k <= 53)%Z /\
    (e1 + e2 + k <= e <= e1 + e2 + k + 1)%Z /\
    (2 ^ (52 + k) <= Z.pos (m1 * m2) < 2 ^ (53 + k))%Z /\
    Rabs (IZR (Z.pos m) * bpow e - IZR (Z.pos (m1 * m2)) * bpow (e1 + e2))
      <= /2 * bpow (e1 + e2 + k).
Proof.
  intros Hd1 Hd2 He1 He2. unfold mul, SFmul. simpl xorb.
  pose proof (digits2_pos_bounds m1) as [H1lo H1hi].
  pose proof (digits2_pos_bounds m2) as [H2lo H2hi].
  rewrite Hd1 in H1lo, H1hi. rewrite Hd2 in H2lo, H2hi.
  change (2 ^ (53 - 1))%Z with 4503599627370496%Z in H1lo, H2lo.
  change (2 ^ 53)%Z with 9007199254740992%Z in *.
  assert (Hp : (2 ^ 104 <= Z.pos (m1 * m2) < 2 ^ 106)%Z).
  { rewrite Pos2Z.inj_mul.
    change (2 ^ 104)%Z with (4503599627370496 * 4503599627370496)%Z.
    change (2 ^ 106)%Z with (9007199254740992 * 9007199254740992)%Z. nia. }
  pose proof (digits2_pos_bounds (m1 * m2)) as [Hlo Hhi].
  assert (Hdp : (105 <= Zdigits2 (Z.pos (m1 * m2)) <= 106)%Z).
  { simpl Zdigits2. split.
    - destruct (Z_lt_le_dec (Z.pos (digits2_pos (m1 * m2))) 105) as [Hlt|];
        [|lia].
      assert (2 ^ Z.pos (digits2_pos (m1 * m2)) <= 2 ^ 104)%Z
        by (apply Z.pow_le_mono_r; lia). lia.
    - destruct (Z_lt_le_dec 106 (Z.pos (digits2_pos (m1 * m2)))) as [Hgt|];
        [|lia].
      assert (2 ^ 106 <= 2 ^ (Z.pos (digits2_pos (m1 * m2)) - 1))%Z
        by (apply Z.pow_le_mono_r; lia). lia. }
  destruct (binary_round_aux_spec (Z.pos (m1 * m2)) (e1 + e2) loc_Exact
              (IZR (Z.pos (m1 * m2))))
    as (m & e & Hm & Hdm & He & Herr); try lia; [reflexivity|].
  exists m, e, (Zdigits2 (Z.pos (m1 * m2)) - 53)%Z.
  split; [assumption|]. split; [assumption|]. split; [lia|].
  split; [lia|]. split; [|assumption].
  simpl Zdigits2 in *.
  replace (52 + (Z.pos (digits2_pos (m1 * m2)) - 53))%Z
    with (Z.pos (digits2_pos (m1 * m2)) - 1)%Z by lia.
  replace (53 + (Z.pos (digits2_pos (m1 * m2)) - 53))%Z
    with (Z.pos (digits2_pos (m1 * m2))) by lia.
  split; assumption.
Qed.

(** [maxTodos * 0.8] compared with an integer: the error of [0.8] and the
    rounding of the product never change the answer. *)
Lemma mul_eight_tenths (M : Z) :
  (0 < M < 2 ^ 32)%Z ->
  exists (m : positive) (e : Z),
    mul (of_int M) Markup.eight_tenths = S754_finite false m e /\
    Z.pos (digits2_pos m) = 53%Z /\
    forall L : Z,
      IZR L <= IZR (Z.pos m) * bpow e <-> (5 * L <= 4 * M)%Z.
Proof.
  intros [HM0 HM32]. change (2 ^ 32)%Z with 4294967296%Z in HM32.
  destruct (of_int_exact M) as (mn & en & -> & Hdn & Hen & Hvn).
  { change (2 ^ 53)%Z with 9007199254740992%Z. lia. }
  unfold Markup.eight_tenths.
  destruct (mul_ulp mn 7205759403792794 en (-53) Hdn eq_refl)
    as (m & e & k & -> & Hdm & Hk & He & Hmx & Herr); try lia.
  exists m, e. split; [reflexivity|]. split; [assumption|].
  set (E := (en + -53 + k)%Z) in *.
  set (U := bpow E) in *.
  assert (HU : 0 < U) by apply bpow_pos.
  set (X := IZR (Z.pos (mn * 7205759403792794)) * bpow (en + -53)) in *.
  set (v := IZR (Z.pos m) * bpow e) in *.
  set (MR := IZR M) in *.
  assert (HMR : 1 <= MR < 4294967296)
    by (split; [apply (IZR_le 1) | apply IZR_lt]; lia).
  (* the exact product *)
  assert (HX : 5 * X = 4 * MR + MR * / 4503599627370496).
  { unfold X. rewrite Pos2Z.inj_mul, mult_IZR, bpow_add.
    replace (IZR (Z.pos mn) * IZR (Z.pos 7205759403792794)
             * (bpow en * bpow (-53)))
      with (IZR (Z.pos mn) * bpow en
            * (IZR (Z.pos 7205759403792794) * bpow (-53))) by ring.
    rewrite Hvn. fold MR. unfold bpow. simpl. lra. }
  (* its place *)
  assert (HXU : 4503599627370496 * U <= X < 9007199254740992 * U).
  { destruct Hmx as [Hlo Hhi]. apply IZR_le in Hlo. apply IZR_lt in Hhi.
    rewrite <- !bpow_IZR in Hlo, Hhi by lia.
    pose proof (bpow_pos (en + -53)) as Hp.
    unfold X, U, E.
    replace (en + -53 + k)%Z with (k + (en + -53))%Z by lia.
    rewrite (bpow_add k).
    rewrite !bpow_add in Hlo, Hhi.
    replace (bpow 52) with 4503599627370496 in Hlo
      by (unfold bpow; simpl; lra).
    replace (bpow 53) with 9007199254740992 in Hhi
      by (unfold bpow; simpl; lra).
    set (b := bpow (en + -53)) in *. set (bk := bpow k) in *.
    set (P := IZR (Z.pos (mn * 7205759403792794))) in *.
    clearbody b bk P. split.
    - rewrite <- Rmult_assoc. apply Rmult_le_compat_r; lra.
    - rewrite <- Rmult_assoc. apply Rmult_lt_compat_r; lra. }
  apply Rabs_bound in Herr. fold U in Herr.
  (* the value is a multiple of the unit *)
  assert (HV : exists V : Z, v = IZR V * U).
  { assert (Hcase : e = E \/ e = (E + 1)%Z) by (unfold E; lia).
    destruct Hcase as [->| ->].
    - now exists (Z.pos m).
    - exists (2 * Z.pos m)%Z. unfold v, U. rewrite bpow_add, mult_IZR.
      replace (bpow 1) with 2 by (unfold bpow; simpl; ring). ring. }
  destruct HV as [V HV].
  (* and so is every integer *)
  assert (HLam : forall L : Z, exists Lam : Z, IZR L = IZR Lam * U).
  { intros L. exists (L * 2 ^ (- E))%Z.
    assert (HE : (0 <= - E)%Z) by (unfold E; lia).
    unfold U. rewrite mult_IZR, <- bpow_IZR by assumption.
    rewrite Rmult_assoc, <- bpow_add.
    replace (- E + E)%Z with 0%Z by lia.
    unfold bpow. simpl. ring. }
  clearbody X v U. intros L. split.
  - intros HL. apply Z.le_ngt. intros Hgt.
    assert (H5 : (4 * M + 1 <= 5 * L)%Z) by lia.
    apply IZR_le in H5. rewrite plus_IZR, !mult_IZR in H5. fold MR in H5.
    lra.
  - intros HL. destruct (Z.eq_dec (5 * L) (4 * M))%Z as [Heq|Hne].
    + (* the multiple of five: the product is just above the integer *)
      assert (HLR : 5 * IZR L = 4 * MR)
        by (unfold MR; rewrite <- !mult_IZR; now f_equal).
      destruct (HLam L) as [Lam HL'].
      assert (Hnear : - / 2 * U < (IZR V - IZR Lam) * U).
      { rewrite Rmult_minus_distr_r, <- HV, <- HL'. lra. }
      assert (Hz : (Lam <= V)%Z).
      { apply Z.lt_succ_r. apply lt_IZR. rewrite succ_IZR.
        apply Rmult_lt_reg_r with U; [assumption|]. lra. }
      rewrite HV, HL'. apply Rmult_le_compat_r; [lra|].
      now apply IZR_le.
    + assert (H5 : (5 * L <= 4 * M - 1)%Z) by lia.
      apply IZR_le in H5. rewrite minus_IZR, !mult_IZR in H5.
      fold MR in H5. lra.
Qed.

End LimitFacts.

(** [0.8] is what dividing 8 by 10 gives, and 50 times [0.8] is 40. *)
Example eight_tenths_values :
  div (of_int 8) (of_int 10) = Markup.eight_tenths /\
  mul (of_int 50) Markup.eight_tenths = of_int 40.
Proof. split; reflexivity. Qed.

(** X23.  With [maxTodos] from 0 to below 2^32 and a list of fewer than
    2^32 tasks, the warning of the limit indicator is displayed exactly
    when the list holds more than four fifths of [maxTodos] tasks: that
    [0.8] is not exactly four fifths as a Number, and that the product is
    rounded, never changes the answer. *)
Theorem limit_warning_iff (props : TodoListProps) (s : V2.State) :
  0 <= maxTodos props < 2 ^ 32 ->
  Z.of_nat (length (V2.todos s)) < 2 ^ 32 ->
  (Markup.limit_warning props s = true <->
   4 * maxTodos props < 5 * Z.of_nat (length (V2.todos s))).
Proof.
  intros [HM0 HM32] HL32. unfold Markup.limit_warning, Markup.Number_gt.
  set (L := Z.of_nat (length (V2.todos s))) in *.
  assert (HL0 : 0 <= L) by (unfold L; lia).
  clearbody L. set (M := maxTodos props) in *. clearbody M.
  assert (Hint : forall n : Z,
             0 < n < 2 ^ 32 ->
             exists (m : positive) (e : Z),
               of_int n = S754_finite false m e /\
               Z.pos (digits2_pos m) = 53 /\
               (IZR (Z.pos m) * Binary64.bpow e = IZR n)%R).
  { intros n Hn.
    destruct (Binary64Facts.of_int_exact n) as (m & e & H1 & H2 & _ & H3).
    - change (2 ^ 32) with 4294967296 in Hn.
      change (2 ^ 53) with 9007199254740992. lia.
    - now exists m, e. }
  destruct (Z.eq_dec M 0) as [->|HMne].
  - change (mul (of_int 0) Markup.eight_tenths) with (S754_zero false).
    destruct (Z.eq_dec L 0) as [->|HLne]; [split; [discriminate | lia]|].
    destruct (Hint L) as (m & e & -> & _); [lia|].
    split; [lia | reflexivity].
  - destruct (LimitFacts.mul_eight_tenths M) as (m & e & -> & Hd & Hcmp);
      [lia|].
    destruct (Z.eq_dec L 0) as [->|HLne]; [split; [discriminate | lia]|].
    destruct (Hint L) as (ml & el & -> & Hdl & Hvl); [lia|].
    rewrite (LimitFacts.SFltb_finite m ml e el Hd Hdl), Hvl.
    specialize (Hcmp L). split.
    + intros Hlt. apply Z.lt_nge. intros Hle. apply Hcmp in Hle.
      apply (Rlt_irrefl (IZR L)). eapply Rle_lt_trans; eassumption.
    + intros Hlt. apply Rnot_le_lt. intros Hle. apply Hcmp in Hle. lia.
Qed.

Lemma limit_warning_iff_witness :
  Markup.limit_warning
    {| initialTasks := []; maxTodos := 5; enablePriority := false |}
    (idle (three_tasks ++ [task 4 false medium]) "") = true <->
  4 * 5 < 5 * Z.of_nat (length (three_tasks ++ [task 4 false medium])).
Proof.
  apply (limit_warning_iff
           {| initialTasks := []; maxTodos := 5; enablePriority := false |}
           (idle (three_tasks ++ [task 4 false medium]) "")).
  - simpl. lia.
  - simpl. lia.
Defined.
